(** * Strange-attractor visualiser: a shallow embedding of [attractors.py]
      and of the computing branches of [plot.py].

    Python values are modelled as follows.
    - [float] is the kernel's binary64 float ([PrimFloat.float]): literals
      such as [2.67] denote the same double as in Python.
    - [int] is [Z]; lengths and indices of sequences are [nat].
    - [Dict[str, V]] is [gmap string V]; subscripting a missing key raises
      [KeyError].
    - A raised exception is a value of [exn]; a computation that may raise
      returns [result].
    - [numpy] and [scipy] routines ([linspace], [odeint], [random.choice],
      [gaussian_kde]) are the environment of the program: they are fields of
      the record [Numerics], together with the part of their documented
      behaviour that the program relies on. *)

From Stdlib Require Import Floats ZArith Lia DecimalString.
From Stdlib Require DecimalNat.
From stdpp Require Import gmap strings list fin_maps.

#[local] Set Warnings "-inexact-float,-abstract-large-number,-clear-no-such-hyp".
#[local] Open Scope Z_scope.
#[local] Open Scope nat_scope.

(** ** Exceptions and the error monad *)

Inductive exn : Type :=
| KeyError (key : string)
| IndexError
| ValueError
| TypeError
| ZeroDivisionError
| LinAlgError.

Inductive result (A : Type) : Type :=
| Ok (a : A)
| Raise (e : exn).

Arguments Ok {A} a.
Arguments Raise {A} e.

#[global] Instance result_ret : MRet result := fun _ a => Ok a.
#[global] Instance result_bind : MBind result := fun _ _ f m =>
  match m with
  | Ok a => f a
  | Raise e => Raise e
  end.
#[global] Instance result_fmap : FMap result := fun _ _ f m =>
  match m with
  | Ok a => Ok (f a)
  | Raise e => Raise e
  end.

Definition is_ok {A} (m : result A) : bool :=
  match m with
  | Ok _ => true
  | Raise _ => false
  end.

(** [d[k]] on a Python dict. *)
Definition getitem {V} (d : gmap string V) (k : string) : result V :=
  match d !! k with
  | Some v => Ok v
  | None => Raise (KeyError k)
  end.

(** A generator or comprehension whose body may raise: the items are
    evaluated left to right and the first exception escapes. *)
Fixpoint traverse {A B} (f : A -> result B) (l : list A) : result (list B) :=
  match l with
  | [] => Ok []
  | a :: l' => b ← f a; bs ← traverse f l'; Ok (b :: bs)
  end.

(** ** The numerical environment: numpy and scipy *)

(** A right-hand side is called by the solver as [func(y, t, *args)]; it may
    raise. *)
Definition Equation : Type := list float -> float -> list float -> result (list float).

(** The library routines the program calls, with the part of their
    documentation the program relies on.
    - [np.linspace(start, stop, num)] returns [num] samples when
      [num >= 0].
    - [odeint(func, y0, t, args)] returns one row per element of [t], each
      of the size of [y0], provided [func] maps every state of that size to
      a derivative of that size; it reports integration trouble as a
      warning, never as an exception.
    - [np.random.choice(a, size, replace=False)] draws [size] distinct
      indices below [a] and advances the generator state; a negative [size]
      is a [ValueError].
    - [gaussian_kde(dataset)] fits a model or raises ([LinAlgError] on
      singular data, [ValueError] on too few points); calling the model on a
      [2 x m] array evaluates its density at each of the [m] columns. *)
Record Numerics : Type := {
  linspace : Z -> Z -> Z -> result (list float);
  linspace_shape : forall start stop num, (0 <= num)%Z ->
    exists t, linspace start stop num = Ok t /\ length t = Z.to_nat num;
  odeint : Equation -> list float -> list float -> list float -> result (list (list float));
  odeint_shape : forall func y0 t args,
    t <> [] ->
    (forall y s, length y = length y0 ->
       exists dy, func y s args = Ok dy /\ length dy = length y0) ->
    exists sol, odeint func y0 t args = Ok sol /\ length sol = length t /\
                Forall (fun row => length row = length y0) sol;
  rng : Type;
  choice : rng -> Z -> Z -> result (list nat) * rng;
  choice_spec : forall g a size, (0 <= size <= a)%Z ->
    exists idx, (choice g a size).1 = Ok idx /\ length idx = Z.to_nat size /\
                NoDup idx /\ Forall (fun i => i < Z.to_nat a) idx;
  choice_negative : forall g a size, (size < 0)%Z ->
    (choice g a size).1 = Raise ValueError;
  kde : Type;
  gaussian_kde : list float * list float -> result kde;
  kde_pdf : kde -> float -> float -> float
}.

(** ** attractors.py *)

Module Attractors.

Record AttractorParam : Type := {
  name : string;
  default : float;
  min_val : float;
  max_val : float;
  step : float
}.

(** The [name] field of a configuration is [cfg_name] here, since [name]
    is the field of [AttractorParam]. *)
Record AttractorConfig : Type := {
  cfg_name : string;
  equation : Equation;
  params : list AttractorParam;
  initial_conditions : list float;
  time_defaults : gmap string Z
}.

(** Binding of [*args] to three, respectively five, positional parameters;
    a wrong number of arguments is a [TypeError]. *)
Definition star3 (f : list float -> float -> float -> float -> float -> result (list float))
  : Equation :=
  fun x_var t args =>
    match args with
    | [a; b; c] => f x_var t a b c
    | _ => Raise TypeError
    end.

Definition star5
  (f : list float -> float -> float -> float -> float -> float -> float -> result (list float))
  : Equation :=
  fun x_var t args =>
    match args with
    | [a; b; c; d; e] => f x_var t a b c d e
    | _ => Raise TypeError
    end.

Definition lorenz (x_var : list float) (t : float) (sigma rho beta : float)
  : result (list float) :=
  match x_var with
  | [x; y; z] =>
      let dx_dt := (sigma * (y - x))%float in
      let dy_dt := (x * (rho - z) - y)%float in
      let dz_dt := (x * y - beta * z)%float in
      Ok [dx_dt; dy_dt; dz_dt]
  | _ => Raise ValueError
  end.

Definition lorenz_attractor : AttractorConfig := {|
  cfg_name := "lorenz";
  equation := star3 lorenz;
  params := [
    {| name := "sigma"; default := 10.0; min_val := 0.0; max_val := 50.0; step := 0.1 |};
    {| name := "rho"; default := 28.0; min_val := 0.0; max_val := 50.0; step := 0.1 |};
    {| name := "beta"; default := 2.67; min_val := 0.0; max_val := 50.0; step := 0.1 |}
  ];
  initial_conditions := [0.0; 1.5; 15.0]%float;
  time_defaults := <["t_min" := 0%Z]> (<["t_max" := 50%Z]> (<["n" := 10000%Z]> ∅))
|}.

Definition rossler (x_var : list float) (t : float) (a b c : float)
  : result (list float) :=
  match x_var with
  | [x; y; z] =>
      let dxdt := (- y - z)%float in
      let dydt := (x + (a * y))%float in
      let dzdt := (b + z * (x - c))%float in
      Ok [dxdt; dydt; dzdt]
  | _ => Raise ValueError
  end.

Definition rossler_attractor : AttractorConfig := {|
  cfg_name := "Rossler attractor";
  equation := star3 rossler;
  params := [
    {| name := "a"; default := 0.2; min_val := 0.0; max_val := 1.0; step := 0.01 |};
    {| name := "b"; default := 0.2; min_val := 0.0; max_val := 1.0; step := 0.01 |};
    {| name := "c"; default := 5.7; min_val := 0.0; max_val := 20.0; step := 0.01 |}
  ];
  initial_conditions := [1.0; 1.0; 1.0]%float;
  time_defaults := <["t_min" := 0%Z]> (<["t_max" := 100%Z]> (<["n" := 10000%Z]> ∅))
|}.

Definition dadras (x_var : list float) (t : float) (a b c d e : float)
  : result (list float) :=
  match x_var with
  | [x; y; z] =>
      let dxdt := (y - a * x + b * y * z)%float in
      let dydt := (c * y - x * z + z)%float in
      let dzdt := (d * x * y - e * z)%float in
      Ok [dxdt; dydt; dzdt]
  | _ => Raise ValueError
  end.

(** The third initial condition is the integer [-2] in the source; the
    solver receives it as the float [-2.0]. *)
Definition dadras_attractor : AttractorConfig := {|
  cfg_name := "Dadras attractor";
  equation := star5 dadras;
  params := [
    {| name := "a"; default := 3.0; min_val := -10.0; max_val := 10.0; step := 0.1 |};
    {| name := "b"; default := 2.7; min_val := -10.0; max_val := 10.0; step := 0.1 |};
    {| name := "c"; default := 1.7; min_val := -10.0; max_val := 10.0; step := 0.1 |};
    {| name := "d"; default := 2.0; min_val := -10.0; max_val := 10.0; step := 0.1 |};
    {| name := "e"; default := 9.0; min_val := -10.0; max_val := 10.0; step := 0.1 |}
  ];
  initial_conditions := [1.1; 2.1; -2.0]%float;
  time_defaults := <["t_min" := 0%Z]> (<["t_max" := 75%Z]> (<["n" := 10000%Z]> ∅))
|}.

Definition ATTRACTORS : gmap string AttractorConfig :=
  <["Lorenz" := lorenz_attractor]>
    (<["Rossler" := rossler_attractor]>
       (<["Dadras" := dadras_attractor]> ∅)).

(** [{p.name: p.default for p in config.params}]: a later item with the
    same key replaces an earlier one. *)
Definition get_default_params (config : AttractorConfig) : gmap string float :=
  foldl (fun d p => <[name p := default p]> d) ∅ (params config).

(** [tuple(param_values[p.name] for p in config.params)] *)
Definition solve_attractor_args (config : AttractorConfig) (param_values : gmap string float)
  : result (list float) :=
  traverse (fun p => getitem param_values (name p)) (params config).

(** [solve_attractor(config, param_values)]: the time grid, the positional
    arguments, then the solver; the solution has one row per grid point. *)
Definition solve_attractor (env : Numerics) (config : AttractorConfig)
  (param_values : gmap string float) : result (list (list float)) :=
  let t_def := time_defaults config in
  t_min ← getitem t_def "t_min";
  t_max ← getitem t_def "t_max";
  n ← getitem t_def "n";
  t ← linspace env t_min t_max n;
  args ← solve_attractor_args config param_values;
  odeint env (equation config) (initial_conditions config) t args.

End Attractors.

(** ** plot.py: the computing parts of [plot_attractor] *)

Module Plot.
Import Attractors.

(** [config = ATTRACTORS[selected_name]] *)
Definition get_definition (selected_name : string) : result AttractorConfig :=
  getitem ATTRACTORS selected_name.

(** [x, y, z = solution.T]: the three columns of the solution array. *)
Definition unpack_row (row : list float) : result (float * float * float) :=
  match row with
  | [a; b; c] => Ok (a, b, c)
  | _ => Raise ValueError
  end.

Definition unpack_columns (solution : list (list float))
  : result (list float * list float * list float) :=
  rows ← traverse unpack_row solution;
  Ok (map (fun r => r.1.1) rows, map (fun r => r.1.2) rows, map (fun r => r.2) rows).

(** *** Density colouring (the [use_density] branch) *)

(** [a[indices]] with an integer index array. *)
Definition fancy_index (a : list float) (indices : list nat) : result (list float) :=
  traverse (fun i => match a !! i with Some v => Ok v | None => Raise IndexError end) indices.

(** [np.vstack([a, b])] of two one-dimensional arrays. *)
Definition vstack2 (a b : list float) : result (list float * list float) :=
  if length a =? length b then Ok (a, b) else Raise ValueError.

(** [kde(points)]: the fitted density at every column of [points]. *)
Definition kde_call (env : Numerics) (k : kde env) (points : list float * list float)
  : list float :=
  zip_with (kde_pdf env k) points.1 points.2.

(** Lines 80-83, with the literal [1000] as [max_sample_size] (the program
    runs it at [1000]); [n] is [config.time_defaults["n"]] and [g] the
    state of numpy's generator. *)
Definition estimate_density (env : Numerics) (max_sample_size n : Z)
  (x y : list float) (g : rng env) : result (list float) * rng env :=
  let sample_size := Z.min max_sample_size n in
  let drawn := choice env g n sample_size in
  (indices ← drawn.1;
   xs ← fancy_index x indices;
   ys ← fancy_index y indices;
   dataset ← vstack2 xs ys;
   k ← gaussian_kde env dataset;
   points ← vstack2 x y;
   Ok (kde_call env k points),
   drawn.2).

(** *** Animation frames (the [animate] branch) *)

(** [a // b] on non-negative integers. *)
Definition floordiv (a b : nat) : result nat :=
  if b =? 0 then Raise ZeroDivisionError else Ok (a / b).

(** [range(start, stop, step)] on non-negative integers: CPython computes
    the length first and the [k]-th item as [start + k * step]. *)
Definition range_length (start stop step : nat) : nat :=
  if start <? stop then (stop - start - 1) / step + 1 else 0.

Definition range (start stop step : nat) : result (list nat) :=
  if step =? 0 then Raise ValueError
  else Ok (map (fun k => start + k * step) (seq 0 (range_length start stop step))).

(** [str(i)] of a non-negative integer. *)
Definition str (i : nat) : string := NilZero.string_of_uint (Nat.to_uint i).

(** [go.Frame(data=[go.Scatter3d(x=..., y=..., z=...)], name=...)]; the
    marker styling of the trace is presentation and is left out. *)
Record Frame (A : Type) : Type := {
  data_x : list A;
  data_y : list A;
  data_z : list A;
  frame_name : string
}.

Arguments data_x {A} _.
Arguments data_y {A} _.
Arguments data_z {A} _.
Arguments frame_name {A} _.

(** [go.Frame(data=[go.Scatter3d(x=x[:i], y=y[:i], z=z[:i], ...)], name=str(i))] *)
Definition frame_upto {A} (x y z : list A) (i : nat) : Frame A := {|
  data_x := take i x;
  data_y := take i y;
  data_z := take i z;
  frame_name := str i
|}.

(** Lines 90-102, with the literal [300] as [max_frames]. *)
Definition make_frames {A} (max_frames : nat) (x y z : list A) : result (list (Frame A)) :=
  q ← floordiv (length x) max_frames;
  let step := Nat.max 1 q in
  r ← range step (length x) step;
  Ok (map (frame_upto x y z) r).

(** The branch as the program runs it. *)
Definition animate_frames {A} (x y z : list A) : result (list (Frame A)) :=
  make_frames 300 x y z.

(** The number of samples a frame shows. *)
Definition frame_length {A} (f : Frame A) : nat := length (data_x f).

End Plot.

(** ** An executable instance of the environment

    A small stand-in for numpy and scipy on which the model can be run:
    the grid follows [np.linspace], the solver is the explicit Euler scheme
    on the requested grid, the index draw is a rotation of [0 .. a-1] by a
    pseudo-random offset, and the density model averages an inverse
    quadratic kernel over its data set.  It shows that the contract stated
    in [Numerics] can be met; no theorem about the program depends on its
    numerics. *)

Module Toy.

Definition float_of_nat (k : nat) : float :=
  PrimFloat.of_uint63 (Uint63.of_Z (Z.of_nat k)).

Definition float_of_Z (z : Z) : float :=
  if (z <? 0)%Z then (- PrimFloat.of_uint63 (Uint63.of_Z (- z)))%float
  else PrimFloat.of_uint63 (Uint63.of_Z z).

Definition toy_linspace (start stop num : Z) : result (list float) :=
  if (num <? 0)%Z then Raise ValueError
  else
    let a := float_of_Z start in
    let b := float_of_Z stop in
    let m := Z.to_nat num in
    let h := ((b - a) / float_of_nat (m - 1))%float in
    Ok (map (fun k => if (1 <? m) && (k =? m - 1) then b
                      else (a + float_of_nat k * h)%float) (seq 0 m)).

Fixpoint euler (func : Equation) (args : list float) (y : list float) (s : float)
  (ts : list float) : result (list (list float)) :=
  match ts with
  | [] => Ok []
  | s' :: ts' =>
      dy ← func y s args;
      let y' := zip_with (fun yi di => (yi + (s' - s) * di)%float) y dy in
      rest ← euler func args y' s' ts';
      Ok (y' :: rest)
  end.

Definition toy_odeint (func : Equation) (y0 t args : list float)
  : result (list (list float)) :=
  match t with
  | [] => Raise ValueError
  | t0 :: ts =>
      _ ← func y0 t0 args;
      rest ← euler func args y0 t0 ts;
      Ok (y0 :: rest)
  end.

Definition lcg (g : Z) : Z := ((g * 1103515245 + 12345) mod 2147483648)%Z.

Definition toy_choice (g a size : Z) : result (list nat) * Z :=
  if ((0 <=? size) && (size <=? a))%Z then
    let off := Z.to_nat (g mod a) in
    (Ok (map (fun k => (k + off) mod Z.to_nat a) (seq 0 (Z.to_nat size))), lcg g)
  else (Raise ValueError, g).

Definition toy_gaussian_kde (dataset : list float * list float)
  : result (list float * list float) :=
  if length dataset.1 <? 2 then Raise ValueError else Ok dataset.

Definition toy_kde_pdf (k : list float * list float) (px py : float) : float :=
  let kernel xi yi :=
    (1 / (1 + (px - xi) * (px - xi) + (py - yi) * (py - yi)))%float in
  (foldr PrimFloat.add 0%float (zip_with kernel k.1 k.2) / float_of_nat (length k.1))%float.

Lemma toy_linspace_shape start stop num :
  (0 <= num)%Z ->
  exists t, toy_linspace start stop num = Ok t /\ length t = Z.to_nat num.
Proof.
  intros Hnum. unfold toy_linspace.
  destruct (Z.ltb_spec num 0) as [Hneg|_]; [lia|].
  eexists. split; [reflexivity|].
  by rewrite length_map, length_seq.
Qed.

Lemma euler_shape func args (d : nat) ts :
  (forall y s, length y = d -> exists dy, func y s args = Ok dy /\ length dy = d) ->
  forall y s, length y = d ->
  exists sol, euler func args y s ts = Ok sol /\ length sol = length ts /\
              Forall (fun row => length row = d) sol.
Proof.
  intros Hfunc. induction ts as [|s' ts IH]; intros y s Hy; simpl.
  - exists []. by repeat split.
  - destruct (Hfunc y s Hy) as (dy & -> & Hdy). simpl.
    set (y' := zip_with _ y dy).
    assert (Hy' : length y' = d).
    { subst y'. rewrite length_zip_with. lia. }
    destruct (IH y' s' Hy') as (rest & -> & Hlen & Hrows). simpl.
    exists (y' :: rest). repeat split; [simpl; lia|].
    by constructor.
Qed.

Lemma toy_odeint_shape func y0 t args :
  t <> [] ->
  (forall y s, length y = length y0 ->
     exists dy, func y s args = Ok dy /\ length dy = length y0) ->
  exists sol, toy_odeint func y0 t args = Ok sol /\ length sol = length t /\
              Forall (fun row => length row = length y0) sol.
Proof.
  intros Ht Hfunc. destruct t as [|t0 ts]; [done|]. simpl.
  destruct (Hfunc y0 t0 eq_refl) as (dy & -> & _). simpl.
  destruct (euler_shape func args (length y0) ts Hfunc y0 t0 eq_refl)
    as (rest & -> & Hlen & Hrows). simpl.
  exists (y0 :: rest). repeat split; [simpl; lia|].
  by constructor.
Qed.

Lemma rotate_index_inj (a off k1 k2 : nat) :
  k1 < a -> k2 < a -> (k1 + off) mod a = (k2 + off) mod a -> k1 = k2.
Proof.
  intros H1 H2 Heq.
  pose proof (Nat.div_mod_eq (k1 + off) a) as E1.
  pose proof (Nat.div_mod_eq (k2 + off) a) as E2.
  pose proof (Nat.mod_upper_bound (k1 + off) a ltac:(lia)) as B1.
  rewrite Heq in E1.
  assert ((k1 + off) / a = (k2 + off) / a) by nia.
  nia.
Qed.

Lemma toy_choice_spec g a size :
  (0 <= size <= a)%Z ->
  exists idx, (toy_choice g a size).1 = Ok idx /\ length idx = Z.to_nat size /\
              NoDup idx /\ Forall (fun i => i < Z.to_nat a) idx.
Proof.
  intros [H0 Ha]. unfold toy_choice.
  destruct (Z.leb_spec 0 size) as [_|?]; [|lia].
  destruct (Z.leb_spec size a) as [_|?]; [|lia]. simpl.
  eexists. split; [reflexivity|]. split; [by rewrite length_map, length_seq|]. split.
  - apply NoDup_fmap_2_strong; [|apply NoDup_seq].
    intros k1 k2 Hk1 Hk2. apply elem_of_seq in Hk1, Hk2.
    apply rotate_index_inj; lia.
  - apply Forall_forall. intros i Hi. apply list_elem_of_fmap in Hi as (k & -> & Hk).
    apply elem_of_seq in Hk. apply Nat.mod_upper_bound. lia.
Qed.

Lemma toy_choice_negative g a size :
  (size < 0)%Z -> (toy_choice g a size).1 = Raise ValueError.
Proof.
  intros Hneg. unfold toy_choice.
  destruct (Z.leb_spec 0 size) as [?|_]; [lia|]. reflexivity.
Qed.

Definition toy_numerics : Numerics := {|
  linspace := toy_linspace;
  linspace_shape := toy_linspace_shape;
  odeint := toy_odeint;
  odeint_shape := toy_odeint_shape;
  rng := Z;
  choice := toy_choice;
  choice_spec := toy_choice_spec;
  choice_negative := toy_choice_negative;
  kde := list float * list float;
  gaussian_kde := toy_gaussian_kde;
  kde_pdf := toy_kde_pdf
|}.

End Toy.

(** ** plot.py: session state, widgets and the figure

    The widgets of the page are inputs of a run: what the select boxes, the
    sliders, the check boxes and the Save button return is given, and the
    model follows what the program does with it.  [st.session_state] is a
    dictionary; the program stores in it the list of saved parameter sets,
    and the reset callback stores the floats of the keyed sliders.  The
    session state below is the one the program reads and writes; what the
    widget library itself records in it is not modelled. *)

Module Ui.
Import Attractors Plot.

Inductive state_value : Type :=
| Number (v : float)
| ParamSets (sets : list (gmap string float)).

(** [f"{selected_name}_{param_name}"] *)
Definition widget_key (selected_name param_name : string) : string :=
  selected_name +:+ "_" +:+ param_name.

(** The loop of [reset_parameters] over the items of a dictionary, in the
    order they are visited. *)
Definition reset_items (selected_name : string) (items : list (string * float))
  (session_state : gmap string state_value) : gmap string state_value :=
  foldl (fun ss item => <[widget_key selected_name item.1 := Number item.2]> ss)
        session_state items.

(** [reset_parameters(config, selected_name)], the callback of the Reset
    button, on the session state. *)
Definition reset_parameters (config : AttractorConfig) (selected_name : string)
  (session_state : gmap string state_value) : gmap string state_value :=
  reset_items selected_name (map_to_list (get_default_params config)) session_state.


(** Lines 35-36:
    [if "saved_values" not in st.session_state: st.session_state.saved_values = []] *)
Definition init_saved_values (session_state : gmap string state_value)
  : gmap string state_value :=
  match session_state !! "saved_values" with
  | Some _ => session_state
  | None => <["saved_values" := ParamSets []]> session_state
  end.

(** What [slider(label, min_value, max_value, value, step, key)] returns in
    this run. *)
Definition Slider : Type := string -> float -> float -> float -> float -> string -> float.

(** Lines 38-48: the mapping built from the sliders, one per parameter. *)
Definition slider_param_values (slider : Slider) (selected_name : string)
  (config : AttractorConfig) : gmap string float :=
  foldl (fun param_values p =>
           let value := slider (name p) (min_val p) (max_val p) (default p) (step p)
                               (widget_key selected_name (name p)) in
           <[name p := value]> param_values)
        ∅ (params config).

(** [{param.name: param_values[param.name] for param in config.params}] *)
Definition schema_values (config : AttractorConfig) (param_values : gmap string float)
  : result (gmap string float) :=
  items ← traverse (fun p => v ← getitem param_values (name p); Ok (name p, v))
                   (params config);
  Ok (foldl (fun d item => <[item.1 := item.2]> d) ∅ items).

(** The outcome of a step of the page: it returns, or raises one of the
    exceptions of [exn], or raises [AttributeError]. *)
Inductive outcome (A : Type) : Type :=
| Returned (a : A)
| Raised (e : exn)
| RaisedAttributeError.

Arguments Returned {A} a.
Arguments Raised {A} e.
Arguments RaisedAttributeError {A}.


(** Lines 55-58: [st.session_state.saved_values.append({...})] when the Save
    button is clicked.  The attribute and its [append] are looked up before
    the dictionary is built; a missing attribute and a float both raise
    [AttributeError]. *)
Definition save_values (clicked : bool) (config : AttractorConfig)
  (param_values : gmap string float) (session_state : gmap string state_value)
  : outcome (gmap string state_value) :=
  if clicked then
    match session_state !! "saved_values" with
    | Some (ParamSets sets) =>
        match schema_values config param_values with
        | Ok d => Returned (<["saved_values" := ParamSets (sets ++ [d])]> session_state)
        | Raise e => Raised e
        end
    | _ => RaisedAttributeError
    end
  else Returned session_state.

(** [dict(size=0.4, color=density, colorscale=colorscale)] or
    [dict(size=0.4)]; the one dictionary is the marker of every trace of the
    figure. *)
Record Marker : Type := {
  marker_size : float;
  marker_color : option (list float);
  marker_colorscale : option string
}.

Definition marker_dict (density : option (list float)) (colorscale : string) : Marker :=
  match density with
  | Some d => {| marker_size := 0.4; marker_color := Some d;
                 marker_colorscale := Some colorscale |}
  | None => {| marker_size := 0.4; marker_color := None; marker_colorscale := None |}
  end.

(** A step of the animation slider: [args[0] = [f.name]] and [label]. *)
Record SliderStep : Type := {
  step_target : string;
  step_label : string
}.

(** The figure: its trace, the marker, the frames and the slider steps;
    layout constants are left out. *)
Record Figure : Type := {
  fig_x : list float;
  fig_y : list float;
  fig_z : list float;
  fig_marker : Marker;
  fig_frames : list (Frame float);
  fig_steps : list SliderStep
}.

(** Lines 88-186: the figure of the animate branch and of the plain one. *)
Definition build_figure (animate : bool) (marker : Marker) (x y z : list float)
  : result Figure :=
  if animate then
    let step := Nat.max 1 (length x / 300) in
    frames ← animate_frames x y z;
    Ok {| fig_x := take step x; fig_y := take step y; fig_z := take step z;
          fig_marker := marker;
          fig_frames := frames;
          fig_steps := imap (fun i f => {| step_target := frame_name f;
                                           step_label := str i |}) frames |}
  else
    Ok {| fig_x := x; fig_y := y; fig_z := z; fig_marker := marker;
          fig_frames := []; fig_steps := [] |}.

(** Lines 66-186: from the parameter values to the figure. *)
Definition render (env : Numerics) (config : AttractorConfig)
  (param_values : gmap string float) (use_density : bool) (colorscale : string)
  (animate : bool) (g : rng env) : result Figure * rng env :=
  match (solution ← solve_attractor env config param_values;
         columns ← unpack_columns solution;
         n ← getitem (time_defaults config) "n";
         Ok (columns, n)) with
  | Raise e => (Raise e, g)
  | Ok (x, y, z, n) =>
      if use_density then
        let estimate := estimate_density env 1000 n x y g in
        (density ← estimate.1;
         build_figure animate (marker_dict (Some density) colorscale) x y z,
         estimate.2)
      else (build_figure animate (marker_dict None colorscale) x y z, g)
  end.



End Ui.

(** ** Vocabulary of the properties *)

Import Attractors Plot.

(** The mapping holds a value for every parameter of the schema. *)
Definition covers (config : AttractorConfig) (param_values : gmap string float) : bool :=
  forallb (fun p => match param_values !! name p with Some _ => true | None => false end)
          (params config).

(** Some supplied value lies strictly outside the inclusive bounds
    [[min_val, max_val]] of its parameter. *)
Definition out_of_range (config : AttractorConfig) (param_values : gmap string float) : bool :=
  existsb (fun p => match param_values !! name p with
                    | Some v => (v <? min_val p)%float || (max_val p <? v)%float
                    | None => false
                    end)
          (params config).

(** The configuration with the bounds of every parameter replaced. *)
Definition with_bounds (lo hi : float) (config : AttractorConfig) : AttractorConfig := {|
  cfg_name := cfg_name config;
  equation := equation config;
  params := map (fun p => {| name := name p; default := default p;
                             min_val := lo; max_val := hi; step := step p |})
                (params config);
  initial_conditions := initial_conditions config;
  time_defaults := time_defaults config
|}.

(** [step = max(1, len(x) // max_frames)] as a function of the length. *)
Definition frame_step (max_frames len : nat) : nat := Nat.max 1 (len / max_frames).

(** The equation accepts every state of the size of the initial conditions
    when given one argument per parameter of the schema. *)
Definition well_formed (config : AttractorConfig) : Prop :=
  forall args y s,
    length args = length (params config) ->
    length y = length (initial_conditions config) ->
    exists dy, equation config y s args = Ok dy /\
               length dy = length (initial_conditions config).

(** The lengths of the prefixes the animate branch emits for a trajectory
    of [len] samples: [step, 2*step, ...], below [len]. *)
Definition frame_indices (max_frames len : nat) : list nat :=
  map (fun k => frame_step max_frames len + k * frame_step max_frames len)
      (seq 0 ((len - 1) / frame_step max_frames len)).

(** *** Sample inputs *)

(** The Rossler parameters with [c = 100.0], outside its bounds [[0, 20]]. *)
Definition rossler_c100 : gmap string float :=
  <["c" := 100.0%float]> (get_default_params rossler_attractor).

(** A trajectory column of the catalog's size. *)
Definition column_10000 : list float := replicate 10000 0%float.

(** A five-sample trajectory and its density under the executable
    environment, fitted on three samples. *)
Definition five_x : list float := [1; 2; 3; 4; 5]%float.
Definition five_y : list float := [1; 0; 1; 0; 2]%float.
Definition five_density : list float :=
  Eval vm_compute in
    match (estimate_density Toy.toy_numerics 3 5 five_x five_y 7%Z).1 with
    | Ok density => density
    | Raise _ => []
    end.

(** *** Vocabulary of the session and figure properties *)

(** The default of a parameter lies within its inclusive bounds. *)
Definition default_within_bounds (p : AttractorParam) : bool :=
  (min_val p <=? default p)%float && (default p <=? max_val p)%float.

(** The value the slider of a parameter returns in a run. *)
Definition slider_value (slider : Ui.Slider) (selected_name : string) (p : AttractorParam)
  : float :=
  slider (name p) (min_val p) (max_val p) (default p) (step p)
         (Ui.widget_key selected_name (name p)).

(** A slider that returns the float stored under its key, and its [value]
    argument when the session state holds none. *)
Definition keyed_slider (session_state : gmap string Ui.state_value) : Ui.Slider :=
  fun _ _ _ value _ key =>
    match session_state !! key with
    | Some (Ui.Number v) => v
    | _ => value
    end.

(** A session in which the Lorenz sliders were moved and one parameter set
    was saved. *)
Definition moved_session : gmap string Ui.state_value :=
  <["Lorenz_sigma" := Ui.Number 12.5%float]>
    (<["Lorenz_rho" := Ui.Number 30%float]>
       (<["Rossler_a" := Ui.Number 0.5%float]>
          (<["saved_values" := Ui.ParamSets [get_default_params lorenz_attractor]]> ∅))).


(** * Properties *)

(** ** The catalog *)

Lemma registered_inv key config :
  ATTRACTORS !! key = Some config ->
  (key = "Lorenz" /\ config = lorenz_attractor) \/
  (key = "Rossler" /\ config = rossler_attractor) \/
  (key = "Dadras" /\ config = dadras_attractor).
Proof.
  unfold ATTRACTORS. intros H.
  destruct (decide (key = "Lorenz")) as [->|N1].
  { rewrite lookup_insert_eq in H. left. split; congruence. }
  rewrite lookup_insert_ne in H by done.
  destruct (decide (key = "Rossler")) as [->|N2].
  { rewrite lookup_insert_eq in H. right; left. split; congruence. }
  rewrite lookup_insert_ne in H by done.
  destruct (decide (key = "Dadras")) as [->|N3].
  { rewrite lookup_insert_eq in H. right; right. split; congruence. }
  rewrite lookup_insert_ne in H by done.
  by rewrite lookup_empty in H.
Qed.

Lemma unregistered key :
  key <> "Lorenz" -> key <> "Rossler" -> key <> "Dadras" -> ATTRACTORS !! key = None.
Proof.
  intros N1 N2 N3. unfold ATTRACTORS.
  rewrite !lookup_insert_ne by done. apply lookup_empty.
Qed.

Lemma getitem_Some {V} (d : gmap string V) k v : d !! k = Some v -> getitem d k = Ok v.
Proof. unfold getitem. by intros ->. Qed.

Lemma getitem_None {V} (d : gmap string V) k : d !! k = None -> getitem d k = Raise (KeyError k).
Proof. unfold getitem. by intros ->. Qed.

(** C7: [ATTRACTORS[name]] returns the stored configuration for each of the
    three registered keys and raises for every other name (the spec's
    [UnknownAttractorError] is the [KeyError] of the dictionary lookup, which
    carries the requested name); "Nonexistent" is such a name. *)
Theorem get_definition_total (selected_name : string) :
  dom ATTRACTORS = {["Lorenz"; "Rossler"; "Dadras"]} /\
  (selected_name ∈ dom ATTRACTORS ->
     exists config, ATTRACTORS !! selected_name = Some config /\
                    get_definition selected_name = Ok config) /\
  (selected_name ∉ dom ATTRACTORS ->
     get_definition selected_name = Raise (KeyError selected_name)) /\
  get_definition "Lorenz" = Ok lorenz_attractor /\
  get_definition "Rossler" = Ok rossler_attractor /\
  get_definition "Dadras" = Ok dadras_attractor /\
  get_definition "Nonexistent" = Raise (KeyError "Nonexistent").
Proof.
  split.
  { unfold ATTRACTORS. rewrite !dom_insert_L, dom_empty_L. set_solver. }
  split.
  { intros Hin. apply elem_of_dom in Hin as [config Hc].
    exists config. split; [done|]. by apply getitem_Some. }
  split.
  { intros Hout. apply not_elem_of_dom in Hout. by apply getitem_None. }
  split; [by apply getitem_Some|].
  split; [by apply getitem_Some|].
  split; [by apply getitem_Some|].
  apply getitem_None, unregistered; discriminate.
Qed.

(** C10: a built-in configuration is never registered under its own [name]
    field: the keys are "Lorenz", "Rossler", "Dadras", the names are
    "lorenz", "Rossler attractor", "Dadras attractor", and looking a
    configuration up by its name raises. *)
Theorem registry_key_is_not_name (key : string) (config : AttractorConfig)
  (Hreg : ATTRACTORS !! key = Some config) :
  (key, cfg_name config) ∈
    [("Lorenz", "lorenz"); ("Rossler", "Rossler attractor"); ("Dadras", "Dadras attractor")] /\
  cfg_name config <> key /\
  get_definition key = Ok config /\
  get_definition (cfg_name config) = Raise (KeyError (cfg_name config)).
Proof.
  destruct (registered_inv _ _ Hreg) as [[-> ->]|[[-> ->]|[-> ->]]]; simpl.
  - split; [set_solver|]. split; [discriminate|]. split; [by apply getitem_Some|].
    apply getitem_None, unregistered; discriminate.
  - split; [set_solver|]. split; [discriminate|]. split; [by apply getitem_Some|].
    apply getitem_None, unregistered; discriminate.
  - split; [set_solver|]. split; [discriminate|]. split; [by apply getitem_Some|].
    apply getitem_None, unregistered; discriminate.
Qed.

Lemma registry_key_is_not_name_lorenz :
  ("Lorenz", cfg_name lorenz_attractor) ∈
    [("Lorenz", "lorenz"); ("Rossler", "Rossler attractor"); ("Dadras", "Dadras attractor")] /\
  cfg_name lorenz_attractor <> "Lorenz" /\
  get_definition "Lorenz" = Ok lorenz_attractor /\
  get_definition (cfg_name lorenz_attractor) = Raise (KeyError (cfg_name lorenz_attractor)).
Proof. apply (registry_key_is_not_name "Lorenz" lorenz_attractor). reflexivity. Defined.

(** C9: the entry registered as "Lorenz" has the derivative
    [(sigma*(y-x), x*(rho-z)-y, x*y-beta*z)], the parameters
    [sigma = 10], [rho = 28], [beta = 2.67] in this order, the initial state
    [(0, 1.5, 15)] and the time domain [0 .. 50] with 10000 samples. *)
Theorem lorenz_entry (x y z t sigma rho beta : float) :
  ATTRACTORS !! "Lorenz" = Some lorenz_attractor /\
  equation lorenz_attractor [x; y; z] t [sigma; rho; beta]
    = Ok [sigma * (y - x); x * (rho - z) - y; x * y - beta * z]%float /\
  map name (params lorenz_attractor) = ["sigma"; "rho"; "beta"] /\
  map default (params lorenz_attractor) = [10; 28; 2.67]%float /\
  get_default_params lorenz_attractor
    = <["sigma" := 10%float]> (<["rho" := 28%float]> (<["beta" := 2.67%float]> ∅)) /\
  initial_conditions lorenz_attractor = [0; 1.5; 15]%float /\
  time_defaults lorenz_attractor !! "t_min" = Some 0%Z /\
  time_defaults lorenz_attractor !! "t_max" = Some 50%Z /\
  time_defaults lorenz_attractor !! "n" = Some 10000%Z.
Proof.
  do 4 (split; [reflexivity|]).
  split; [|repeat split].
  unfold get_default_params; simpl.
  apply map_eq. intros k.
  destruct (decide (k = "sigma")) as [->|?]; [reflexivity|].
  destruct (decide (k = "rho")) as [->|?]; [reflexivity|].
  destruct (decide (k = "beta")) as [->|?]; [reflexivity|].
  by rewrite !lookup_insert_ne.
Qed.

(** ** Parameter binding in [solve_attractor] *)

Lemma bind_Ok {A B} (m : result A) (f : A -> result B) b :
  (m ≫= f) = Ok b -> exists a, m = Ok a /\ f a = Ok b.
Proof. destruct m as [a|e]; simpl; [eauto|discriminate]. Qed.

Lemma traverse_ext {A B} (f g : A -> result B) l :
  (forall a, a ∈ l -> f a = g a) -> traverse f l = traverse g l.
Proof.
  induction l as [|a l IH]; intros H; simpl; [done|].
  rewrite H by set_solver. rewrite IH; [done|]. intros; apply H; set_solver.
Qed.

Lemma traverse_pure {A B} (g : A -> B) l : traverse (fun a => Ok (g a)) l = Ok (map g l).
Proof. induction l as [|a l IH]; simpl; [done|]. by rewrite IH. Qed.

Lemma traverse_Ok {A B} (f : A -> result B) l bs :
  traverse f l = Ok bs -> Forall2 (fun a b => f a = Ok b) l bs.
Proof.
  revert bs. induction l as [|a l IH]; simpl; intros bs H.
  - injection H as [= <-]. constructor.
  - apply bind_Ok in H as (b & Hb & H). apply bind_Ok in H as (bs' & Hbs & H).
    injection H as [= <-]. constructor; [done|]. by apply IH.
Qed.

Lemma traverse_Raise {A B} (f : A -> result B) l e :
  traverse f l = Raise e ->
  exists l1 a l2, l = l1 ++ a :: l2 /\ Forall (fun a' => is_ok (f a') = true) l1 /\ f a = Raise e.
Proof.
  induction l as [|a l IH]; simpl; [discriminate|].
  destruct (f a) as [b|e'] eqn:Hfa; simpl.
  - destruct (traverse f l) as [bs|e''] eqn:Htl; simpl; [discriminate|].
    intros [= ->]. destruct (IH eq_refl) as (l1 & a' & l2 & -> & Hl1 & Ha').
    exists (a :: l1), a', l2. split; [done|]. split; [|done].
    constructor; [by rewrite Hfa|done].
  - intros [= ->]. exists [], a, l. by repeat split.
Qed.

Lemma getitem_Ok_inv {V} (d : gmap string V) k v : getitem d k = Ok v -> d !! k = Some v.
Proof. unfold getitem. destruct (d !! k); congruence. Qed.

Lemma getitem_Raise_inv {V} (d : gmap string V) k e :
  getitem d k = Raise e -> d !! k = None /\ e = KeyError k.
Proof. unfold getitem. destruct (d !! k); [discriminate|]. by intros [= <-]. Qed.

Lemma covers_args config param_values :
  covers config param_values = true ->
  exists args, solve_attractor_args config param_values = Ok args /\
               length args = length (params config).
Proof.
  unfold covers, solve_attractor_args.
  induction (params config) as [|p ps IH]; simpl; intros H.
  - by exists [].
  - apply andb_prop in H as [Hp Hps].
    destruct (IH Hps) as (args & -> & Hlen).
    unfold getitem. destruct (param_values !! name p) as [v|]; [|discriminate].
    simpl. exists (v :: args). split; [done|]. simpl. by rewrite Hlen.
Qed.

Lemma default_params_other (ps : list AttractorParam) (d : gmap string float) k :
  k ∉ map name ps ->
  foldl (fun d p => <[name p := default p]> d) d ps !! k = d !! k.
Proof.
  revert d. induction ps as [|q ps IH]; intros d Hk; simpl; [done|].
  simpl in Hk. apply not_elem_of_cons in Hk as [Hq Hps].
  rewrite IH by done. apply lookup_insert_ne. congruence.
Qed.

Lemma default_params_lookup (ps : list AttractorParam) (d : gmap string float) p :
  NoDup (map name ps) -> p ∈ ps ->
  foldl (fun d p => <[name p := default p]> d) d ps !! name p = Some (default p).
Proof.
  revert d. induction ps as [|q ps IH]; intros d Hnd Hp; simpl.
  - by apply not_elem_of_nil in Hp.
  - apply NoDup_cons in Hnd as [Hq Hnd].
    apply elem_of_cons in Hp as [->|Hp].
    + rewrite default_params_other by done. apply lookup_insert_eq.
    + by apply IH.
Qed.

Lemma default_args config :
  NoDup (map name (params config)) ->
  solve_attractor_args config (get_default_params config) = Ok (map default (params config)).
Proof.
  intros Hnd. unfold solve_attractor_args, get_default_params.
  rewrite <- traverse_pure. apply traverse_ext. intros p Hp.
  apply getitem_Some. by apply default_params_lookup.
Qed.

(** C5 (as the code has it): binding takes the value of every schema
    parameter from the mapping, in schema order, and nothing else; a schema
    name missing from the mapping raises [KeyError] for the first such name
    instead of falling back to the default.  The defaults produced by
    [get_default_params] bind to the schema defaults, whereas the empty
    mapping raises as soon as the schema has a parameter. *)
Theorem binding_has_no_defaults (config : AttractorConfig) (param_values : gmap string float) :
  match solve_attractor_args config param_values with
  | Ok args => Forall2 (fun p a => param_values !! name p = Some a) (params config) args
  | Raise e =>
      exists ps1 p ps2, params config = ps1 ++ p :: ps2 /\
        Forall (fun q => is_Some (param_values !! name q)) ps1 /\
        param_values !! name p = None /\ e = KeyError (name p)
  end /\
  (NoDup (map name (params config)) ->
   solve_attractor_args config (get_default_params config)
     = Ok (map default (params config))) /\
  (forall p ps, params config = p :: ps ->
   solve_attractor_args config ∅ = Raise (KeyError (name p))).
Proof.
  split; [|split].
  - destruct (solve_attractor_args config param_values) as [args|e] eqn:H.
    + apply traverse_Ok in H. eapply Forall2_impl; [exact H|].
      intros p a Hpa. by apply getitem_Ok_inv.
    + apply traverse_Raise in H as (ps1 & p & ps2 & Hps & Hps1 & Hp).
      apply getitem_Raise_inv in Hp as [Hp ->].
      exists ps1, p, ps2. repeat split; [done| |done].
      eapply Forall_impl; [exact Hps1|]. intros q Hq. simpl in Hq.
      unfold getitem in Hq. by destruct (param_values !! name q).
  - apply default_args.
  - intros p ps Hps. unfold solve_attractor_args. rewrite Hps. simpl.
    unfold getitem. by rewrite lookup_empty.
Qed.

Lemma binding_has_no_defaults_lorenz :
  Forall2 (fun p a => get_default_params lorenz_attractor !! name p = Some a)
    (params lorenz_attractor) [10; 28; 2.67]%float /\
  solve_attractor_args lorenz_attractor (get_default_params lorenz_attractor)
    = Ok [10; 28; 2.67]%float /\
  solve_attractor_args lorenz_attractor ∅ = Raise (KeyError "sigma").
Proof.
  pose proof (binding_has_no_defaults lorenz_attractor (get_default_params lorenz_attractor))
    as (H1 & H2 & H3).
  split; [exact H1|]. split.
  - apply H2. compute_done.
  - exact (H3 _ _ eq_refl).
Defined.

(** C5, refuted as stated: with the empty mapping no parameter falls back
    to its default, and the outcome differs from binding the defaults. *)
Lemma empty_overrides_raise :
  solve_attractor_args lorenz_attractor ∅ = Raise (KeyError "sigma") /\
  solve_attractor_args lorenz_attractor (get_default_params lorenz_attractor)
    = Ok [10; 28; 2.67]%float.
Proof. split; reflexivity. Qed.

(** ** [solve_attractor] *)

Lemma traverse_map {A B C} (f : B -> result C) (g : A -> B) l :
  traverse f (map g l) = traverse (fun a => f (g a)) l.
Proof. induction l as [|a l IH]; simpl; [done|]. by rewrite IH. Qed.

Lemma solve_attractor_ok env config param_values t_min t_max n :
  time_defaults config !! "t_min" = Some t_min ->
  time_defaults config !! "t_max" = Some t_max ->
  time_defaults config !! "n" = Some n ->
  (0 < n)%Z ->
  well_formed config ->
  covers config param_values = true ->
  exists traj, solve_attractor env config param_values = Ok traj /\
               length traj = Z.to_nat n /\
               Forall (fun row => length row = length (initial_conditions config)) traj.
Proof.
  intros Hmin Hmax Hn Hpos Hwf Hcov. unfold solve_attractor.
  rewrite (getitem_Some _ _ _ Hmin), (getitem_Some _ _ _ Hmax), (getitem_Some _ _ _ Hn).
  cbn [mbind result_bind].
  destruct (linspace_shape env t_min t_max n ltac:(lia)) as (t & -> & Ht).
  destruct (covers_args _ _ Hcov) as (args & -> & Hargs).
  cbn [mbind result_bind].
  destruct (odeint_shape env (equation config) (initial_conditions config) t args)
    as (sol & Hsol & Hlen & Hrows).
  - intros ->. simpl in Ht. lia.
  - intros y s Hy. by apply Hwf.
  - exists sol. split; [done|]. split; [lia|done].
Qed.

(** A built-in equation returns three derivatives for three coordinates and
    the right number of arguments. *)
Ltac equation_total :=
  let args := fresh "args" in
  let y := fresh "y" in
  let Hargs := fresh "Hargs" in
  let Hy := fresh "Hy" in
  intros args y ? Hargs Hy; simpl in Hargs, Hy;
  repeat (destruct args as [|? args]; try discriminate);
  repeat (destruct y as [|? y]; try discriminate);
  eexists; split; reflexivity.

Lemma builtin_shape key config :
  ATTRACTORS !! key = Some config ->
  well_formed config /\
  time_defaults config !! "t_min" = Some 0%Z /\
  (exists t_max, time_defaults config !! "t_max" = Some t_max) /\
  time_defaults config !! "n" = Some 10000%Z /\
  length (initial_conditions config) = 3 /\
  NoDup (map name (params config)) /\
  params config <> [].
Proof.
  intros Hreg.
  destruct (registered_inv _ _ Hreg) as [[-> ->]|[[-> ->]|[-> ->]]].
  - split; [equation_total|].
    repeat split; try reflexivity; [by exists 50%Z|compute_done|discriminate].
  - split; [equation_total|].
    repeat split; try reflexivity; [by exists 100%Z|compute_done|discriminate].
  - split; [equation_total|].
    repeat split; try reflexivity; [by exists 75%Z|compute_done|discriminate].
Qed.

Lemma covers_defaults config :
  NoDup (map name (params config)) -> covers config (get_default_params config) = true.
Proof.
  intros Hnd. unfold covers. apply forallb_forall. intros p Hp.
  apply list_elem_of_In in Hp.
  unfold get_default_params. by rewrite default_params_lookup.
Qed.

Lemma builtin_solve env key config param_values :
  ATTRACTORS !! key = Some config ->
  covers config param_values = true ->
  exists traj, solve_attractor env config param_values = Ok traj /\
               time_defaults config !! "n" = Some (Z.of_nat (length traj)) /\
               Z.of_nat (length traj) = 10000%Z /\
               Forall (fun row => length row = 3) traj.
Proof.
  intros Hreg Hcov.
  destruct (builtin_shape _ _ Hreg) as (Hwf & Hmin & [t_max Hmax] & Hn & Hic & _ & _).
  destruct (solve_attractor_ok env config param_values _ _ _ Hmin Hmax Hn ltac:(lia) Hwf Hcov)
    as (traj & Hrun & Hlen & Hrows).
  exists traj. split; [done|].
  assert (Z.of_nat (length traj) = 10000%Z) as E by (rewrite Hlen; lia).
  rewrite E. split; [done|]. split; [done|]. by rewrite <- Hic.
Qed.

Lemma empty_mapping_raises env key config :
  ATTRACTORS !! key = Some config ->
  exists p ps, params config = p :: ps /\
               solve_attractor env config ∅ = Raise (KeyError (name p)).
Proof.
  intros Hreg.
  destruct (builtin_shape _ _ Hreg) as (_ & Hmin & [t_max Hmax] & Hn & _ & _ & Hne).
  destruct (params config) as [|p ps] eqn:Hps; [done|].
  exists p, ps. split; [done|]. unfold solve_attractor.
  rewrite (getitem_Some _ _ _ Hmin), (getitem_Some _ _ _ Hmax), (getitem_Some _ _ _ Hn).
  cbn [mbind result_bind].
  destruct (linspace_shape env 0 t_max 10000 ltac:(lia)) as (t & -> & _).
  unfold solve_attractor_args. rewrite Hps. simpl.
  unfold getitem. by rewrite lookup_empty.
Qed.

(** C1 (as the code has it): for every built-in configuration,
    [solve_attractor] called with the defaults of [get_default_params], or
    with any mapping that gives every schema parameter a value, succeeds and
    returns [time_defaults["n"]] = 10000 rows of three coordinates; called
    with the empty mapping it raises [KeyError] for the first parameter. *)
Theorem simulate_needs_full_mapping (env : Numerics) (key : string) (config : AttractorConfig)
  (Hreg : ATTRACTORS !! key = Some config) :
  (exists traj, solve_attractor env config (get_default_params config) = Ok traj /\
                time_defaults config !! "n" = Some (Z.of_nat (length traj)) /\
                Z.of_nat (length traj) = 10000%Z /\
                Forall (fun row => length row = 3) traj) /\
  (forall param_values, covers config param_values = true ->
     exists traj, solve_attractor env config param_values = Ok traj /\
                  time_defaults config !! "n" = Some (Z.of_nat (length traj)) /\
                  Z.of_nat (length traj) = 10000%Z /\
                  Forall (fun row => length row = 3) traj) /\
  (exists p ps, params config = p :: ps /\
                solve_attractor env config ∅ = Raise (KeyError (name p))).
Proof.
  split; [|split].
  - eapply builtin_solve; [exact Hreg|].
    apply covers_defaults. by destruct (builtin_shape _ _ Hreg) as (_ & _ & _ & _ & _ & ? & _).
  - intros param_values Hcov. by eapply builtin_solve.
  - by eapply empty_mapping_raises.
Qed.

Lemma simulate_needs_full_mapping_dadras :
  (exists traj, solve_attractor Toy.toy_numerics dadras_attractor
                  (get_default_params dadras_attractor) = Ok traj /\
                time_defaults dadras_attractor !! "n" = Some (Z.of_nat (length traj)) /\
                Z.of_nat (length traj) = 10000%Z /\
                Forall (fun row => length row = 3) traj) /\
  (exists p ps, params dadras_attractor = p :: ps /\
                solve_attractor Toy.toy_numerics dadras_attractor ∅ = Raise (KeyError (name p))).
Proof.
  pose proof (simulate_needs_full_mapping Toy.toy_numerics "Dadras" dadras_attractor eq_refl)
    as (H1 & _ & H3).
  exact (conj H1 H3).
Defined.

(** C1, refuted as stated: with empty overrides every built-in raises. *)
Lemma simulate_empty_overrides_fails :
  (forall env, solve_attractor env lorenz_attractor ∅ = Raise (KeyError "sigma")) /\
  (forall env, solve_attractor env rossler_attractor ∅ = Raise (KeyError "a")) /\
  (forall env, solve_attractor env dadras_attractor ∅ = Raise (KeyError "a")).
Proof.
  split; [|split]; intros env.
  - destruct (empty_mapping_raises env "Lorenz" _ eq_refl) as (p & ps & [= <- <-] & H).
    exact H.
  - destruct (empty_mapping_raises env "Rossler" _ eq_refl) as (p & ps & [= <- <-] & H).
    exact H.
  - destruct (empty_mapping_raises env "Dadras" _ eq_refl) as (p & ps & [= <- <-] & H).
    exact H.
Qed.

Lemma with_bounds_same env lo hi config param_values :
  solve_attractor env (with_bounds lo hi config) param_values
  = solve_attractor env config param_values.
Proof.
  unfold solve_attractor, solve_attractor_args, with_bounds. simpl.
  by rewrite traverse_map.
Qed.

(** C6 (as the code has it): [solve_attractor] validates no range.  Its
    outcome does not depend on [min_val] and [max_val], which only bound the
    sliders; and for every built-in configuration and every mapping that
    gives each schema parameter a value it succeeds, whatever the values. *)
Theorem no_range_validation (env : Numerics) (config : AttractorConfig)
  (param_values : gmap string float) :
  (forall lo hi, solve_attractor env (with_bounds lo hi config) param_values
                 = solve_attractor env config param_values) /\
  (forall key, ATTRACTORS !! key = Some config ->
               covers config param_values = true ->
               is_ok (solve_attractor env config param_values) = true).
Proof.
  split.
  - intros lo hi. apply with_bounds_same.
  - intros key Hreg Hcov.
    destruct (builtin_solve env _ _ _ Hreg Hcov) as (traj & -> & _). reflexivity.
Qed.

Lemma no_range_validation_rossler :
  out_of_range rossler_attractor rossler_c100 = true /\
  (forall lo hi,
     solve_attractor Toy.toy_numerics (with_bounds lo hi rossler_attractor) rossler_c100
     = solve_attractor Toy.toy_numerics rossler_attractor rossler_c100) /\
  is_ok (solve_attractor Toy.toy_numerics rossler_attractor rossler_c100) = true.
Proof.
  split; [reflexivity|].
  pose proof (no_range_validation Toy.toy_numerics rossler_attractor rossler_c100)
    as [Hbounds Hok].
  split; [exact Hbounds|]. apply (Hok "Rossler"); reflexivity.
Defined.

(** C6, refuted as stated: an override strictly outside its bounds raises
    nothing; the trajectory is computed. *)
Lemma out_of_range_is_accepted :
  out_of_range rossler_attractor rossler_c100 = true /\
  solve_attractor_args rossler_attractor rossler_c100 = Ok [0.2; 0.2; 100.0]%float /\
  forall env, exists traj, solve_attractor env rossler_attractor rossler_c100 = Ok traj.
Proof.
  split; [reflexivity|]. split; [reflexivity|]. intros env.
  destruct (builtin_solve env "Rossler" rossler_attractor rossler_c100 eq_refl eq_refl)
    as (traj & H & _).
  by exists traj.
Qed.

(** ** Animation frames *)

Lemma frame_step_pos max_frames len : 1 <= frame_step max_frames len.
Proof. unfold frame_step. lia. Qed.

(** [range] lists exactly the values the loop
    [i = start; while i < stop: yield i; i += step] visits. *)
Lemma range_elements start stop st r i :
  range start stop st = Ok r ->
  i ∈ r <-> exists k, i = start + k * st /\ i < stop.
Proof.
  unfold range. destruct (Nat.eqb_spec st 0) as [|Hst]; [discriminate|].
  intros [= <-]. rewrite list_elem_of_fmap.
  assert (Hlen : forall k, k < range_length start stop st <-> start + k * st < stop).
  { intros k. unfold range_length.
    destruct (Nat.ltb_spec start stop) as [Hlt|Hge]; [|nia].
    pose proof (Nat.div_mod_eq (stop - start - 1) st) as Hdm.
    pose proof (Nat.mod_upper_bound (stop - start - 1) st Hst) as Hr.
    split; intros Hk; nia. }
  split.
  - intros (k & -> & Hk). apply elem_of_seq in Hk. exists k. split; [done|]. apply Hlen. lia.
  - intros (k & -> & Hk). exists k. split; [done|]. apply elem_of_seq. apply Hlen in Hk. lia.
Qed.

Lemma range_length_self st len :
  1 <= st -> range_length st len st = (len - 1) / st.
Proof.
  intros Hst. unfold range_length.
  destruct (Nat.ltb_spec st len) as [Hlt|Hge].
  - replace (len - 1) with ((len - st - 1) + 1 * st) by lia.
    rewrite Nat.div_add by lia. reflexivity.
  - symmetry. apply Nat.div_small. lia.
Qed.

Lemma frame_indices_length max_frames len :
  length (frame_indices max_frames len) = (len - 1) / frame_step max_frames len.
Proof. unfold frame_indices. by rewrite length_map, length_seq. Qed.

Lemma frame_indices_lookup max_frames len k i :
  frame_indices max_frames len !! k = Some i ->
  i = (k + 1) * frame_step max_frames len /\ i < len /\
  k < (len - 1) / frame_step max_frames len.
Proof.
  unfold frame_indices. rewrite list_lookup_fmap.
  destruct (seq 0 _ !! k) as [k'|] eqn:Hk; [|discriminate].
  apply lookup_seq in Hk as [-> Hk]. simpl. intros [= <-].
  pose proof (frame_step_pos max_frames len) as Hst.
  pose proof (Nat.Div0.mul_div_le (len - 1) (frame_step max_frames len)) as Hle.
  split; [lia|]. split; [|done].
  assert ((k + 1) * frame_step max_frames len
          <= frame_step max_frames len * ((len - 1) / frame_step max_frames len)) by nia.
  assert (1 <= len) by (destruct len; [by rewrite Nat.Div0.div_0_l in Hk; lia|lia]).
  lia.
Qed.

Lemma frame_count_bound max_frames len :
  1 <= max_frames ->
  (len - 1) / frame_step max_frames len <= 2 * max_frames - 2.
Proof.
  intros Hm. unfold frame_step.
  pose proof (Nat.div_mod_eq len max_frames) as Hdm.
  pose proof (Nat.mod_upper_bound len max_frames ltac:(lia)) as Hr.
  destruct (len / max_frames) as [|q'] eqn:Hq.
  - change (Nat.max 1 0) with 1. rewrite Nat.div_1_r. lia.
  - replace (Nat.max 1 (S q')) with (S q') by lia.
    assert ((len - 1) / S q' < 2 * max_frames - 1); [|lia].
    apply Nat.Div0.div_lt_upper_bound.
    destruct max_frames as [|m']; [lia|]. nia.
Qed.

Lemma frame_count_within max_frames len :
  1 <= max_frames ->
  len < max_frames \/ len mod max_frames <= len / max_frames ->
  (len - 1) / frame_step max_frames len <= max_frames.
Proof.
  intros Hm Hcase. unfold frame_step.
  pose proof (Nat.div_mod_eq len max_frames) as Hdm.
  pose proof (Nat.mod_upper_bound len max_frames ltac:(lia)) as Hr.
  destruct (len / max_frames) as [|q'] eqn:Hq.
  - change (Nat.max 1 0) with 1. rewrite Nat.div_1_r. lia.
  - replace (Nat.max 1 (S q')) with (S q') by lia.
    assert ((len - 1) / S q' < max_frames + 1); [|lia].
    apply Nat.Div0.div_lt_upper_bound.
    destruct Hcase as [Hlt|Hmod]; nia.
Qed.

Lemma frame_indices_below max_frames len :
  Forall (fun i => i < len) (frame_indices max_frames len).
Proof.
  apply Forall_lookup. intros k i Hk.
  by apply frame_indices_lookup in Hk as (_ & ? & _).
Qed.

Lemma frame_indices_multiples max_frames len :
  frame_indices max_frames len
  = map (fun k => k * frame_step max_frames len)
        (seq 1 ((len - 1) / frame_step max_frames len)).
Proof.
  unfold frame_indices. rewrite <- fmap_S_seq, <- list_fmap_compose.
  apply list_fmap_ext. intros _ k _. simpl. lia.
Qed.

Section Frames.
Context {A : Type}.
Implicit Types x y z : list A.

(** For [max_frames >= 1] the branch raises nothing and emits the prefixes
    of the lengths [frame_indices]. *)
Lemma make_frames_eq max_frames x y z :
  1 <= max_frames ->
  make_frames max_frames x y z
  = Ok (map (frame_upto x y z) (frame_indices max_frames (length x))).
Proof.
  intros Hm. unfold make_frames, floordiv, range.
  destruct (Nat.eqb_spec max_frames 0) as [?|_]; [lia|].
  cbn [mbind result_bind]. fold (frame_step max_frames (length x)).
  pose proof (frame_step_pos max_frames (length x)) as Hst.
  destruct (Nat.eqb_spec (frame_step max_frames (length x)) 0) as [?|_]; [lia|].
  cbn [mbind result_bind]. unfold frame_indices.
  by rewrite range_length_self.
Qed.

(** [len(x) // 0] raises. *)
Lemma make_frames_zero x y z : make_frames 0 x y z = Raise ZeroDivisionError.
Proof. reflexivity. Qed.

Lemma frame_lengths x y z (idxs : list nat) :
  Forall (fun i => i < length x) idxs ->
  map frame_length (map (frame_upto x y z) idxs) = idxs.
Proof.
  induction 1 as [|i idxs Hi _ IH]; simpl; [done|].
  rewrite IH. unfold frame_length at 1. simpl.
  rewrite length_take_le by lia. reflexivity.
Qed.

End Frames.

(** C2 (as the code has it): for [max_frames >= 1] the step is
    [max(1, len // max_frames)] and one frame is emitted for every positive
    multiple of the step strictly below [len]: [(len - 1) // step] frames.
    That count is at most [2 * max_frames - 2]; it is at most [max_frames]
    when [len < max_frames] or [len % max_frames <= len // max_frames]. *)
Theorem frame_count {A : Type} (max_frames : nat) (x y z : list A)
  (Hm : 1 <= max_frames) :
  exists frames,
    make_frames max_frames x y z = Ok frames /\
    map frame_length frames
      = map (fun k => k * Nat.max 1 (length x / max_frames)) (seq 1 (length frames)) /\
    length frames = (length x - 1) / Nat.max 1 (length x / max_frames) /\
    length frames <= 2 * max_frames - 2 /\
    (length x < max_frames \/ length x mod max_frames <= length x / max_frames ->
     length frames <= max_frames).
Proof.
  exists (map (frame_upto x y z) (frame_indices max_frames (length x))).
  split; [by apply make_frames_eq|].
  rewrite length_map, frame_indices_length.
  fold (frame_step max_frames (length x)).
  split; [|split; [done|split]].
  - rewrite frame_lengths by apply frame_indices_below.
    apply frame_indices_multiples.
  - by apply frame_count_bound.
  - by apply frame_count_within.
Qed.

Lemma frame_count_five :
  exists frames,
    make_frames 3 [1; 2; 3; 4; 5] [1; 2; 3; 4; 5] [1; 2; 3; 4; 5] = Ok frames /\
    map frame_length frames = map (fun k => k * Nat.max 1 (5 / 3)) (seq 1 (length frames)) /\
    length frames = (5 - 1) / Nat.max 1 (5 / 3) /\
    length frames <= 2 * 3 - 2 /\
    (5 < 3 \/ 5 mod 3 <= 5 / 3 -> length frames <= 3).
Proof. apply (frame_count 3 [1; 2; 3; 4; 5] [1; 2; 3; 4; 5] [1; 2; 3; 4; 5]). lia. Defined.

(** C2, refuted as stated: the 10000 samples of a built-in trajectory give
    303 frames for the program's [max_frames = 300]. *)
Lemma frames_exceed_max_frames :
  length <$> animate_frames column_10000 column_10000 column_10000 = Ok 303 /\
  300 < 303.
Proof.
  split; [|lia]. unfold animate_frames. rewrite make_frames_eq by lia.
  cbn [fmap result_fmap]. rewrite length_map, frame_indices_length.
  unfold column_10000. rewrite length_replicate.
  vm_compute. reflexivity.
Qed.

(** C3 (as the code has it): for [max_frames >= 1] the frames stop short of
    the trajectory.  When [len > step] the final frame is the prefix of
    length [step * ((len - 1) // step)], the largest multiple of [step]
    strictly below [len], so it misses between one and [step] samples; when
    [len <= step] no frame is emitted. *)
Theorem final_frame {A : Type} (max_frames : nat) (x y z : list A)
  (Hm : 1 <= max_frames) :
  exists frames,
    make_frames max_frames x y z = Ok frames /\
    match last frames with
    | None => length x <= frame_step max_frames (length x)
    | Some f =>
        frame_step max_frames (length x) < length x /\
        data_x f = take (frame_length f) x /\
        frame_length f
          = frame_step max_frames (length x)
            * ((length x - 1) / frame_step max_frames (length x)) /\
        length x - frame_step max_frames (length x) <= frame_length f /\
        frame_length f < length x
    end.
Proof.
  exists (map (frame_upto x y z) (frame_indices max_frames (length x))).
  split; [by apply make_frames_eq|].
  rewrite fmap_last, last_lookup, frame_indices_length.
  pose proof (frame_step_pos max_frames (length x)) as Hst.
  pose proof (Nat.div_mod_eq (length x - 1) (frame_step max_frames (length x))) as Hdm.
  pose proof (Nat.mod_upper_bound (length x - 1) (frame_step max_frames (length x))
                ltac:(lia)) as Hr.
  destruct (frame_indices max_frames (length x) !! _) as [i|] eqn:Hi; simpl.
  - apply frame_indices_lookup in Hi as (Hi & Hlt & Hk).
    unfold frame_length. simpl. rewrite length_take_le by lia.
    split; [nia|]. split; [done|]. split; [nia|]. split; [nia|done].
  - apply lookup_ge_None in Hi. rewrite frame_indices_length in Hi.
    assert ((length x - 1) / frame_step max_frames (length x) = 0) as Hz by lia.
    rewrite Hz in Hdm. lia.
Qed.

Lemma final_frame_five :
  exists frames,
    make_frames 3 [1; 2; 3; 4; 5] [1; 2; 3; 4; 5] [1; 2; 3; 4; 5] = Ok frames /\
    match last frames with
    | None => 5 <= frame_step 3 5
    | Some f =>
        frame_step 3 5 < 5 /\
        data_x f = take (frame_length f) [1; 2; 3; 4; 5] /\
        frame_length f = frame_step 3 5 * ((5 - 1) / frame_step 3 5) /\
        5 - frame_step 3 5 <= frame_length f /\
        frame_length f < 5
    end.
Proof. apply (final_frame 3 [1; 2; 3; 4; 5] [1; 2; 3; 4; 5] [1; 2; 3; 4; 5]). lia. Defined.

(** C3, refuted as stated: the final frame of a 10000-sample trajectory
    shows 9999 samples, and a single sample yields no frame. *)
Lemma final_frame_is_short :
  (fun frames => frame_length <$> last frames)
    <$> animate_frames column_10000 column_10000 column_10000 = Ok (Some 9999) /\
  length column_10000 = 10000 /\
  animate_frames [0%float] [0%float] [0%float] = Ok [].
Proof.
  split; [|split; [apply length_replicate|reflexivity]].
  unfold animate_frames. rewrite make_frames_eq by lia.
  cbn [fmap result_fmap]. rewrite fmap_last, last_lookup, frame_indices_length.
  vm_compute. reflexivity.
Qed.

(** C4: for [max_frames >= 1] the frames are produced, every frame is a
    prefix of the trajectory (of each of its three columns), and each frame
    after the first is strictly longer than the previous one and agrees with
    it on the shared prefix. *)
Theorem frames_strictly_monotone {A : Type} (max_frames : nat) (x y z : list A)
  (Hm : 1 <= max_frames) (Hy : length y = length x) (Hz : length z = length x) :
  exists frames,
    make_frames max_frames x y z = Ok frames /\
    Forall (fun f => data_x f `prefix_of` x /\ data_y f `prefix_of` y /\
                     data_z f `prefix_of` z /\
                     length (data_y f) = frame_length f /\
                     length (data_z f) = frame_length f) frames /\
    forall k f g, frames !! k = Some f -> frames !! S k = Some g ->
      frame_length f < frame_length g /\
      data_x f = take (frame_length f) (data_x g) /\
      data_y f = take (frame_length f) (data_y g) /\
      data_z f = take (frame_length f) (data_z g).
Proof.
  exists (map (frame_upto x y z) (frame_indices max_frames (length x))).
  split; [by apply make_frames_eq|].
  assert (Hlook : forall k f,
            map (frame_upto x y z) (frame_indices max_frames (length x)) !! k = Some f ->
            exists i, f = frame_upto x y z i /\
                      i = (k + 1) * frame_step max_frames (length x) /\ i < length x).
  { intros k f Hk. rewrite list_lookup_fmap in Hk.
    destruct (frame_indices max_frames (length x) !! k) as [i|] eqn:Hi; [|discriminate].
    injection Hk as [= <-]. exists i. split; [done|].
    by apply frame_indices_lookup in Hi as (? & ? & _). }
  split.
  - apply Forall_lookup. intros k f Hk.
    destruct (Hlook k f Hk) as (i & -> & _ & Hi).
    unfold frame_length. simpl.
    rewrite !length_take_le by lia.
    repeat split; apply prefix_take.
  - intros k f g Hf Hg.
    destruct (Hlook k f Hf) as (i & -> & Hi & Hilt).
    destruct (Hlook (S k) g Hg) as (j & -> & Hj & Hjlt).
    pose proof (frame_step_pos max_frames (length x)) as Hst.
    assert (i < j) as Hij by nia.
    unfold frame_length. simpl.
    rewrite !length_take_le by lia.
    rewrite !take_take. replace (i `min` j) with i by lia. by repeat split.
Qed.

Lemma frames_strictly_monotone_seven :
  exists frames,
    make_frames 3 [1; 2; 3; 4; 5; 6; 7] [1; 2; 3; 4; 5; 6; 7] [7; 6; 5; 4; 3; 2; 1]
      = Ok frames /\
    Forall (fun f => data_x f `prefix_of` [1; 2; 3; 4; 5; 6; 7] /\
                     data_y f `prefix_of` [1; 2; 3; 4; 5; 6; 7] /\
                     data_z f `prefix_of` [7; 6; 5; 4; 3; 2; 1] /\
                     length (data_y f) = frame_length f /\
                     length (data_z f) = frame_length f) frames /\
    forall k f g, frames !! k = Some f -> frames !! S k = Some g ->
      frame_length f < frame_length g /\
      data_x f = take (frame_length f) (data_x g) /\
      data_y f = take (frame_length f) (data_y g) /\
      data_z f = take (frame_length f) (data_z g).
Proof.
  apply (frames_strictly_monotone 3
           [1; 2; 3; 4; 5; 6; 7] [1; 2; 3; 4; 5; 6; 7] [7; 6; 5; 4; 3; 2; 1]);
    [lia|reflexivity|reflexivity].
Defined.

(** ** Density colouring *)

Lemma vstack2_Ok a b points :
  vstack2 a b = Ok points -> points = (a, b) /\ length a = length b.
Proof.
  unfold vstack2. destruct (Nat.eqb_spec (length a) (length b)); [|discriminate].
  by intros [= <-].
Qed.

Lemma fancy_index_Ok a indices vs :
  fancy_index a indices = Ok vs -> Forall2 (fun i v => a !! i = Some v) indices vs.
Proof.
  intros H. apply traverse_Ok in H. eapply Forall2_impl; [exact H|].
  intros i v Hi. simpl in Hi. destruct (a !! i); congruence.
Qed.

Lemma choice_Ok env g a size indices :
  (size <= a)%Z ->
  (choice env g a size).1 = Ok indices ->
  (0 <= size)%Z /\ length indices = Z.to_nat size /\ NoDup indices /\
  Forall (fun i => i < Z.to_nat a) indices.
Proof.
  intros Hle Hrun.
  destruct (Z.lt_ge_cases size 0) as [Hneg|Hpos].
  { rewrite (choice_negative env g a size Hneg) in Hrun. discriminate. }
  destruct (choice_spec env g a size ltac:(lia)) as (idx & Hidx & Hlen & Hnd & Hlt).
  rewrite Hidx in Hrun. injection Hrun as [= <-]. by repeat split.
Qed.

(** C8: whenever the density computation succeeds on a trajectory of [n]
    samples, the density has one value per sample, in trajectory order: the
    model is fitted on the samples at [min(max_sample_size, n)] distinct
    drawn indices and then evaluated at every [(x, y)] of the trajectory. *)
Theorem density_covers_trajectory (env : Numerics) (max_sample_size n : Z)
  (x y : list float) (g : rng env) (density : list float)
  (Hn : n = Z.of_nat (length x))
  (Hrun : (estimate_density env max_sample_size n x y g).1 = Ok density) :
  length density = length x /\
  exists indices xs ys k,
    choice env g n (Z.min max_sample_size n)
      = (Ok indices, (estimate_density env max_sample_size n x y g).2) /\
    length indices = Z.to_nat (Z.min max_sample_size (Z.of_nat (length x))) /\
    NoDup indices /\
    Forall2 (fun i v => x !! i = Some v) indices xs /\
    Forall2 (fun i v => y !! i = Some v) indices ys /\
    gaussian_kde env (xs, ys) = Ok k /\
    density = zip_with (kde_pdf env k) x y /\
    forall i xi yi, x !! i = Some xi -> y !! i = Some yi ->
                    density !! i = Some (kde_pdf env k xi yi).
Proof.
  unfold estimate_density in Hrun |- *. cbn [fst snd] in Hrun |- *.
  destruct (choice env g n (Z.min max_sample_size n)) as [drawn g'] eqn:Hdraw.
  cbn [fst snd] in Hrun |- *.
  apply bind_Ok in Hrun as (indices & -> & Hrun).
  apply bind_Ok in Hrun as (xs & Hxs & Hrun).
  apply bind_Ok in Hrun as (ys & Hys & Hrun).
  apply bind_Ok in Hrun as (dataset & Hdata & Hrun).
  apply bind_Ok in Hrun as (k & Hk & Hrun).
  apply bind_Ok in Hrun as (points & Hpoints & Hrun).
  apply vstack2_Ok in Hdata as [-> _].
  apply vstack2_Ok in Hpoints as [-> Hxy].
  injection Hrun as [= <-]. unfold kde_call. cbn [fst snd].
  split; [rewrite length_zip_with; lia|].
  exists indices, xs, ys, k.
  destruct (choice_Ok env g n (Z.min max_sample_size n) indices ltac:(lia)
              ltac:(by rewrite Hdraw)) as (_ & Hlen & Hnd & _).
  split; [done|]. split; [by rewrite <- Hn|]. split; [done|].
  split; [by apply fancy_index_Ok|]. split; [by apply fancy_index_Ok|].
  split; [done|]. split; [done|].
  intros i xi yi Hxi Hyi. rewrite lookup_zip_with, Hxi, Hyi. reflexivity.
Qed.

Lemma density_covers_trajectory_five :
  length five_density = length five_x /\
  exists indices xs ys k,
    Toy.toy_choice 7 5 (Z.min 3 5)
      = (Ok indices, (estimate_density Toy.toy_numerics 3 5 five_x five_y 7%Z).2) /\
    length indices = Z.to_nat (Z.min 3 (Z.of_nat (length five_x))) /\
    NoDup indices /\
    Forall2 (fun i v => five_x !! i = Some v) indices xs /\
    Forall2 (fun i v => five_y !! i = Some v) indices ys /\
    Toy.toy_gaussian_kde (xs, ys) = Ok k /\
    five_density = zip_with (Toy.toy_kde_pdf k) five_x five_y /\
    forall i xi yi, five_x !! i = Some xi -> five_y !! i = Some yi ->
                    five_density !! i = Some (Toy.toy_kde_pdf k xi yi).
Proof.
  apply (density_covers_trajectory Toy.toy_numerics 3 5 five_x five_y 7%Z five_density);
    reflexivity.
Defined.

(** ** Further properties of the catalog and of the pipeline *)

(** The Rossler entry: derivative [(-y - z, x + a*y, b + z*(x - c))],
    parameters [a = 0.2], [b = 0.2], [c = 5.7], initial state [(1, 1, 1)],
    time domain [0 .. 100] with 10000 samples. *)
Theorem rossler_entry (x y z t a b c : float) :
  ATTRACTORS !! "Rossler" = Some rossler_attractor /\
  equation rossler_attractor [x; y; z] t [a; b; c]
    = Ok [- y - z; x + a * y; b + z * (x - c)]%float /\
  map name (params rossler_attractor) = ["a"; "b"; "c"] /\
  map default (params rossler_attractor) = [0.2; 0.2; 5.7]%float /\
  initial_conditions rossler_attractor = [1; 1; 1]%float /\
  time_defaults rossler_attractor !! "t_min" = Some 0%Z /\
  time_defaults rossler_attractor !! "t_max" = Some 100%Z /\
  time_defaults rossler_attractor !! "n" = Some 10000%Z.
Proof. do 7 (split; [reflexivity|]). reflexivity. Qed.

(** The Dadras entry: derivative
    [(y - a*x + b*y*z, c*y - x*z + z, d*x*y - e*z)], parameters [a = 3],
    [b = 2.7], [c = 1.7], [d = 2], [e = 9], initial state [(1.1, 2.1, -2)],
    time domain [0 .. 75] with 10000 samples. *)
Theorem dadras_entry (x y z t a b c d e : float) :
  ATTRACTORS !! "Dadras" = Some dadras_attractor /\
  equation dadras_attractor [x; y; z] t [a; b; c; d; e]
    = Ok [y - a * x + b * y * z; c * y - x * z + z; d * x * y - e * z]%float /\
  map name (params dadras_attractor) = ["a"; "b"; "c"; "d"; "e"] /\
  map default (params dadras_attractor) = [3; 2.7; 1.7; 2; 9]%float /\
  initial_conditions dadras_attractor = [1.1; 2.1; -2]%float /\
  time_defaults dadras_attractor !! "t_min" = Some 0%Z /\
  time_defaults dadras_attractor !! "t_max" = Some 75%Z /\
  time_defaults dadras_attractor !! "n" = Some 10000%Z.
Proof. do 7 (split; [reflexivity|]). reflexivity. Qed.

Lemma default_params_dom (ps : list AttractorParam) (d : gmap string float) :
  dom (foldl (fun d p => <[name p := default p]> d) d ps)
  = dom d ∪ list_to_set (map name ps).
Proof.
  revert d. induction ps as [|p ps IH]; intros d; simpl.
  - set_solver.
  - rewrite IH, dom_insert_L. set_solver.
Qed.

(** [get_default_params] has exactly the schema names as keys, and maps each
    parameter name to its default when the names are distinct. *)
Theorem default_params_schema (config : AttractorConfig)
  (Hnd : NoDup (map name (params config))) :
  dom (get_default_params config) = list_to_set (map name (params config)) /\
  Forall (fun p => get_default_params config !! name p = Some (default p)) (params config).
Proof.
  unfold get_default_params. split.
  - rewrite default_params_dom, dom_empty_L. set_solver.
  - apply Forall_forall. intros p Hp. by apply default_params_lookup.
Qed.

Lemma default_params_schema_dadras :
  dom (get_default_params dadras_attractor)
    = list_to_set (map name (params dadras_attractor)) /\
  Forall (fun p => get_default_params dadras_attractor !! name p = Some (default p))
         (params dadras_attractor).
Proof. apply (default_params_schema dadras_attractor). compute_done. Defined.

Lemma unpack_columns_shape (solution : list (list float)) :
  Forall (fun row => length row = 3) solution ->
  exists x y z, unpack_columns solution = Ok (x, y, z) /\
                length x = length solution /\ length y = length solution /\
                length z = length solution /\
                forall i xi yi zi, x !! i = Some xi -> y !! i = Some yi -> z !! i = Some zi ->
                                   solution !! i = Some [xi; yi; zi].
Proof.
  unfold unpack_columns. induction 1 as [|row solution Hrow _ IH].
  - exists [], [], []. by repeat split.
  - destruct IH as (x & y & z & Hrun & Hx & Hy & Hz & Hrows).
    apply bind_Ok in Hrun as (rows & Hrows' & [= <- <- <-]).
    destruct row as [|a [|b [|c [|? ?]]]]; try discriminate.
    simpl. rewrite Hrows'. simpl.
    eexists _, _, _. split; [reflexivity|]. simpl.
    rewrite Hx, Hy, Hz. repeat split.
    intros [|i] xi yi zi; simpl; [congruence|]. apply Hrows.
Qed.

(** For every built-in configuration and every full mapping, the solution
    unpacks into three columns [x], [y], [z] of the common length
    [time_defaults["n"]] = 10000: the [n] of the density branch is [len(x)]. *)
Theorem builtin_columns (env : Numerics) (key : string) (config : AttractorConfig)
  (param_values : gmap string float)
  (Hreg : ATTRACTORS !! key = Some config)
  (Hcov : covers config param_values = true) :
  exists traj x y z,
    solve_attractor env config param_values = Ok traj /\
    unpack_columns traj = Ok (x, y, z) /\
    time_defaults config !! "n" = Some (Z.of_nat (length x)) /\
    Z.of_nat (length x) = 10000%Z /\ length y = length x /\ length z = length x.
Proof.
  destruct (builtin_solve env _ _ _ Hreg Hcov) as (traj & Hrun & Hn & Hlen & Hrows).
  destruct (unpack_columns_shape traj Hrows) as (x & y & z & Hcols & Hx & Hy & Hz & _).
  exists traj, x, y, z. split; [done|]. split; [done|].
  rewrite Hx. split; [done|]. split; [lia|]. split; congruence.
Qed.

Lemma builtin_columns_lorenz :
  exists traj x y z,
    solve_attractor Toy.toy_numerics lorenz_attractor (get_default_params lorenz_attractor)
      = Ok traj /\
    unpack_columns traj = Ok (x, y, z) /\
    time_defaults lorenz_attractor !! "n" = Some (Z.of_nat (length x)) /\
    Z.of_nat (length x) = 10000%Z /\ length y = length x /\ length z = length x.
Proof.
  apply (builtin_columns Toy.toy_numerics "Lorenz" lorenz_attractor
           (get_default_params lorenz_attractor)); reflexivity.
Defined.

(** For every built-in configuration and every full mapping, the animate
    branch of the program emits 303 frames, the last of which shows 9999 of
    the 10000 samples. *)
Theorem builtin_animation (env : Numerics) (key : string) (config : AttractorConfig)
  (param_values : gmap string float)
  (Hreg : ATTRACTORS !! key = Some config)
  (Hcov : covers config param_values = true) :
  exists traj x y z frames,
    solve_attractor env config param_values = Ok traj /\
    unpack_columns traj = Ok (x, y, z) /\
    animate_frames x y z = Ok frames /\
    length frames = 303 /\
    frame_length <$> last frames = Some 9999.
Proof.
  destruct (builtin_solve env _ _ _ Hreg Hcov) as (traj & Hrun & Hn & Hlen & Hrows).
  destruct (unpack_columns_shape traj Hrows) as (x & y & z & Hcols & Hx & Hy & Hz & _).
  assert (length x = Z.to_nat 10000) as Hx' by lia.
  exists traj, x, y, z, (map (frame_upto x y z) (frame_indices 300 (length x))).
  split; [done|]. split; [done|].
  split; [unfold animate_frames; apply make_frames_eq; lia|].
  rewrite length_map, fmap_last, last_lookup, frame_indices_length, Hx'.
  split; [by vm_compute|].
  assert (frame_indices 300 (Z.to_nat 10000)
            !! Init.Nat.pred ((Z.to_nat 10000 - 1) / frame_step 300 (Z.to_nat 10000))
          = Some 9999) as -> by (by vm_compute).
  simpl. unfold frame_length. simpl. rewrite length_take, Hx'. by vm_compute.
Qed.

Lemma builtin_animation_rossler :
  exists traj x y z frames,
    solve_attractor Toy.toy_numerics rossler_attractor (get_default_params rossler_attractor)
      = Ok traj /\
    unpack_columns traj = Ok (x, y, z) /\
    animate_frames x y z = Ok frames /\
    length frames = 303 /\
    frame_length <$> last frames = Some 9999.
Proof.
  apply (builtin_animation Toy.toy_numerics "Rossler" rossler_attractor
           (get_default_params rossler_attractor)); reflexivity.
Defined.

(** ** The Reset callback *)

Import Ui.

Lemma widget_key_inj selected_name n1 n2 :
  widget_key selected_name n1 = widget_key selected_name n2 -> n1 = n2.
Proof.
  unfold widget_key. intros H.
  apply (inj (String.app selected_name)) in H.
  by apply (inj (String.app "_")) in H.
Qed.

Lemma reset_items_other selected_name items ss k :
  (forall n, n ∈ items.*1 -> k <> widget_key selected_name n) ->
  reset_items selected_name items ss !! k = ss !! k.
Proof.
  unfold reset_items. revert ss.
  induction items as [|[n v] items IH]; intros ss Hk; simpl; [done|].
  rewrite IH.
  - apply lookup_insert_ne. intros Heq. apply (Hk n); [|done]. simpl. apply list_elem_of_here.
  - intros n' Hn'. apply Hk. simpl. by apply list_elem_of_further.
Qed.

Lemma reset_items_lookup selected_name items ss n v :
  NoDup items.*1 -> (n, v) ∈ items ->
  reset_items selected_name items ss !! widget_key selected_name n = Some (Number v).
Proof.
  unfold reset_items. revert ss.
  induction items as [|[n' v'] items IH]; intros ss Hnd Hin; simpl.
  - by apply not_elem_of_nil in Hin.
  - simpl in Hnd. apply NoDup_cons in Hnd as [Hn' Hnd].
    apply elem_of_cons in Hin as [[= -> ->]|Hin].
    + fold (reset_items selected_name items
              (<[widget_key selected_name n' := Number v']> ss)).
      rewrite reset_items_other; [apply lookup_insert_eq|].
      intros m Hm Heq. apply widget_key_inj in Heq as ->. done.
    + by apply IH.
Qed.

(** The state after the loop, key by key. *)
Lemma reset_items_spec selected_name items ss k :
  NoDup items.*1 ->
  (exists n v, (n, v) ∈ items /\ k = widget_key selected_name n /\
               reset_items selected_name items ss !! k = Some (Number v)) \/
  ((forall n, n ∈ items.*1 -> k <> widget_key selected_name n) /\
   reset_items selected_name items ss !! k = ss !! k).
Proof.
  intros Hnd.
  destruct (decide (k ∈ widget_key selected_name <$> items.*1)) as [Hin|Hout].
  - left. apply list_elem_of_fmap in Hin as (n & -> & Hn).
    apply list_elem_of_fmap in Hn as ([n' v] & -> & Hnv). simpl.
    exists n', v. split; [done|]. split; [done|]. by apply reset_items_lookup.
  - right. assert (forall n, n ∈ items.*1 -> k <> widget_key selected_name n) as Hk.
    { intros n Hn ->. apply Hout. apply list_elem_of_fmap. by exists n. }
    split; [done|]. by apply reset_items_other.
Qed.

Lemma default_params_names config n v :
  get_default_params config !! n = Some v -> n ∈ map name (params config).
Proof.
  intros H. assert (n ∈ dom (get_default_params config)) as Hdom by (apply elem_of_dom; eauto).
  unfold get_default_params in Hdom.
  rewrite default_params_dom, dom_empty_L in Hdom. set_solver.
Qed.

Lemma reset_parameters_defaults_aux config selected_name session_state :
  NoDup (map name (params config)) ->
  forall p, p ∈ params config ->
  reset_parameters config selected_name session_state
    !! widget_key selected_name (name p) = Some (Number (default p)).
Proof.
  intros Hnd p Hp. unfold reset_parameters.
  apply reset_items_lookup; [apply NoDup_fst_map_to_list|].
  apply elem_of_map_to_list. unfold get_default_params. by apply default_params_lookup.
Qed.

(** After [reset_parameters(config, selected_name)] the session state holds
    the default of every parameter under the key of its slider, and every
    other key holds what it held before (parameter names distinct). *)
Theorem reset_parameters_defaults (config : AttractorConfig) (selected_name : string)
  (session_state : gmap string state_value)
  (Hnd : NoDup (map name (params config))) :
  Forall (fun p => reset_parameters config selected_name session_state
                     !! widget_key selected_name (name p) = Some (Number (default p)))
         (params config) /\
  forall k, (forall p, p ∈ params config -> k <> widget_key selected_name (name p)) ->
            reset_parameters config selected_name session_state !! k = session_state !! k.
Proof.
  split.
  - apply Forall_forall. intros p Hp. by apply reset_parameters_defaults_aux.
  - intros k Hk. unfold reset_parameters. apply reset_items_other. intros n Hn.
    apply list_elem_of_fmap in Hn as ([n' v] & -> & Hnv). simpl.
    apply elem_of_map_to_list, default_params_names in Hnv.
    apply list_elem_of_fmap in Hnv as (p & -> & Hp). by apply Hk.
Qed.

Lemma reset_parameters_defaults_lorenz :
  Forall (fun p => reset_parameters lorenz_attractor "Lorenz" moved_session
                     !! widget_key "Lorenz" (name p) = Some (Number (default p)))
         (params lorenz_attractor) /\
  forall k, (forall p, p ∈ params lorenz_attractor -> k <> widget_key "Lorenz" (name p)) ->
            reset_parameters lorenz_attractor "Lorenz" moved_session !! k = moved_session !! k.
Proof. apply (reset_parameters_defaults lorenz_attractor "Lorenz" moved_session). compute_done. Defined.

Lemma reset_items_perm selected_name items items' ss :
  NoDup items.*1 -> items ≡ₚ items' ->
  reset_items selected_name items ss = reset_items selected_name items' ss.
Proof.
  intros Hnd Hperm. assert (NoDup items'.*1) as Hnd' by (by rewrite <- Hperm).
  apply map_eq. intros k.
  destruct (reset_items_spec selected_name items ss k Hnd)
    as [(n & v & Hin & -> & ->)|[Hk ->]].
  - symmetry. apply reset_items_lookup; [done|]. by rewrite <- Hperm.
  - symmetry. apply reset_items_other. intros n Hn. apply Hk. by rewrite Hperm.
Qed.

(** Resetting twice is resetting once, and the result does not depend on
    the order in which the items of the defaults dictionary are visited. *)
Theorem reset_parameters_idempotent (config : AttractorConfig) (selected_name : string)
  (session_state : gmap string state_value) :
  reset_parameters config selected_name
    (reset_parameters config selected_name session_state)
  = reset_parameters config selected_name session_state /\
  forall items, items ≡ₚ map_to_list (get_default_params config) ->
                reset_items selected_name items session_state
                = reset_parameters config selected_name session_state.
Proof.
  pose proof (NoDup_fst_map_to_list (get_default_params config)) as Hnd.
  split.
  - unfold reset_parameters. apply map_eq. intros k.
    set (items := map_to_list (get_default_params config)) in *.
    destruct (reset_items_spec selected_name items session_state k Hnd)
      as [(n & v & Hin & -> & ->)|[Hk ->]].
    + by apply reset_items_lookup.
    + rewrite !reset_items_other by done. reflexivity.
  - intros items Hperm. unfold reset_parameters. symmetry.
    by apply reset_items_perm.
Qed.

Lemma widget_key_registered selected_name other n n' :
  selected_name ∈ dom ATTRACTORS -> other ∈ dom ATTRACTORS -> other <> selected_name ->
  widget_key other n <> widget_key selected_name n' /\
  "saved_values" <> widget_key selected_name n'.
Proof.
  intros Hs Ho Hne.
  apply elem_of_dom in Hs as [c Hs]. apply elem_of_dom in Ho as [c' Ho].
  destruct (registered_inv _ _ Hs) as [[-> _]|[[-> _]|[-> _]]];
    destruct (registered_inv _ _ Ho) as [[-> _]|[[-> _]|[-> _]]];
    try done; split; discriminate.
Qed.

(** Resetting one registered attractor leaves the slider values of every
    other registered attractor and the saved parameter sets untouched,
    whatever configuration is passed with the name. *)
Theorem reset_parameters_isolated (config : AttractorConfig) (selected_name other : string)
  (session_state : gmap string state_value)
  (Hsel : selected_name ∈ dom ATTRACTORS) (Hother : other ∈ dom ATTRACTORS)
  (Hne : other <> selected_name) :
  (forall n, reset_parameters config selected_name session_state !! widget_key other n
             = session_state !! widget_key other n) /\
  reset_parameters config selected_name session_state !! "saved_values"
  = session_state !! "saved_values".
Proof.
  unfold reset_parameters. split.
  - intros n. apply reset_items_other. intros n' _.
    by destruct (widget_key_registered selected_name other n n' Hsel Hother Hne).
  - apply reset_items_other. intros n' _.
    by destruct (widget_key_registered selected_name other "" n' Hsel Hother Hne).
Qed.

Lemma reset_parameters_isolated_lorenz :
  (forall n, reset_parameters lorenz_attractor "Lorenz" moved_session !! widget_key "Rossler" n
             = moved_session !! widget_key "Rossler" n) /\
  reset_parameters lorenz_attractor "Lorenz" moved_session !! "saved_values"
  = moved_session !! "saved_values".
Proof.
  apply (reset_parameters_isolated lorenz_attractor "Lorenz" "Rossler" moved_session);
    [compute_done|compute_done|discriminate].
Defined.

(** ** From the sliders to the solver *)

Section SliderValues.
Variable value_of : AttractorParam -> float.

Lemma insert_fold_dom (ps : list AttractorParam) (d : gmap string float) :
  dom (foldl (fun d p => <[name p := value_of p]> d) d ps)
  = dom d ∪ list_to_set (map name ps).
Proof.
  revert d. induction ps as [|p ps IH]; intros d; simpl.
  - set_solver.
  - rewrite IH, dom_insert_L. set_solver.
Qed.

Lemma insert_fold_other (ps : list AttractorParam) (d : gmap string float) k :
  k ∉ map name ps ->
  foldl (fun d p => <[name p := value_of p]> d) d ps !! k = d !! k.
Proof.
  revert d. induction ps as [|q ps IH]; intros d Hk; simpl; [done|].
  simpl in Hk. apply not_elem_of_cons in Hk as [Hq Hps].
  rewrite IH by done. apply lookup_insert_ne. congruence.
Qed.

Lemma insert_fold_lookup (ps : list AttractorParam) (d : gmap string float) p :
  NoDup (map name ps) -> p ∈ ps ->
  foldl (fun d p => <[name p := value_of p]> d) d ps !! name p = Some (value_of p).
Proof.
  revert d. induction ps as [|q ps IH]; intros d Hnd Hp; simpl.
  - by apply not_elem_of_nil in Hp.
  - apply NoDup_cons in Hnd as [Hq Hnd].
    apply elem_of_cons in Hp as [->|Hp].
    + rewrite insert_fold_other by done. apply lookup_insert_eq.
    + by apply IH.
Qed.

End SliderValues.

Lemma dom_covers config (param_values : gmap string float) :
  dom param_values = list_to_set (map name (params config)) ->
  covers config param_values = true.
Proof.
  intros Hdom. unfold covers. apply forallb_forall. intros p Hp.
  apply list_elem_of_In in Hp.
  assert (name p ∈ dom param_values) as Hin.
  { rewrite Hdom. apply elem_of_list_to_set, list_elem_of_fmap. by exists p. }
  apply elem_of_dom in Hin as [v ->]. reflexivity.
Qed.

Lemma slider_param_values_dom slider selected_name config :
  dom (slider_param_values slider selected_name config)
  = list_to_set (map name (params config)).
Proof.
  unfold slider_param_values.
  rewrite (insert_fold_dom (slider_value slider selected_name)), dom_empty_L. set_solver.
Qed.

(** The mapping [plot_attractor] builds from its sliders has exactly the
    schema names as keys, so the binding in [solve_attractor] cannot raise
    [KeyError]; with distinct parameter names the equation receives the
    slider values positionally, in schema order. *)
Theorem slider_values_bind (slider : Slider) (selected_name : string)
  (config : AttractorConfig) :
  dom (slider_param_values slider selected_name config)
    = list_to_set (map name (params config)) /\
  (exists args, solve_attractor_args config (slider_param_values slider selected_name config)
                = Ok args /\ length args = length (params config)) /\
  (NoDup (map name (params config)) ->
   solve_attractor_args config (slider_param_values slider selected_name config)
   = Ok (map (slider_value slider selected_name) (params config))).
Proof.
  split; [apply slider_param_values_dom|]. split.
  - apply covers_args, dom_covers, slider_param_values_dom.
  - intros Hnd. unfold solve_attractor_args.
    rewrite <- traverse_pure. apply traverse_ext. intros p Hp.
    apply getitem_Some. unfold slider_param_values.
    by apply (insert_fold_lookup (slider_value slider selected_name)).
Qed.

Lemma slider_values_bind_lorenz :
  solve_attractor_args lorenz_attractor
    (slider_param_values (keyed_slider moved_session) "Lorenz" lorenz_attractor)
  = Ok [12.5; 30; 2.67]%float.
Proof.
  pose proof (slider_values_bind (keyed_slider moved_session) "Lorenz" lorenz_attractor)
    as (_ & _ & H).
  apply H. compute_done.
Defined.

(** Reset restores the defaults.  If the slider of each parameter returns
    the float the session state holds under its key whenever that float is
    within the slider's bounds, then in the run after
    [reset_parameters(config, selected_name)] the mapping built from the
    sliders is [get_default_params(config)] (names distinct, defaults within
    their bounds). *)
Theorem reset_restores_defaults (config : AttractorConfig) (selected_name : string)
  (session_state : gmap string state_value) (slider : Slider)
  (Hnd : NoDup (map name (params config)))
  (Hbounds : forallb default_within_bounds (params config) = true)
  (Hkeyed : forall p v,
      p ∈ params config ->
      reset_parameters config selected_name session_state
        !! widget_key selected_name (name p) = Some (Number v) ->
      (min_val p <=? v)%float = true -> (v <=? max_val p)%float = true ->
      slider_value slider selected_name p = v) :
  slider_param_values slider selected_name config = get_default_params config /\
  solve_attractor_args config (slider_param_values slider selected_name config)
  = Ok (map default (params config)).
Proof.
  assert (slider_param_values slider selected_name config = get_default_params config) as E.
  { apply map_eq. intros k. unfold slider_param_values, get_default_params.
    destruct (decide (k ∈ map name (params config))) as [Hin|Hout].
    - apply list_elem_of_fmap in Hin as (p & -> & Hp).
      rewrite (insert_fold_lookup (slider_value slider selected_name)) by done.
      rewrite default_params_lookup by done. f_equal.
      pose proof (reset_parameters_defaults_aux config selected_name session_state Hnd p Hp)
        as Hreset.
      rewrite forallb_forall in Hbounds.
      specialize (Hbounds p ltac:(by apply list_elem_of_In)).
      unfold default_within_bounds in Hbounds. apply andb_prop in Hbounds as [Hlo Hhi].
      by apply Hkeyed.
    - rewrite (insert_fold_other (slider_value slider selected_name)) by done.
      by rewrite default_params_other. }
  split; [done|]. rewrite E. by apply default_args.
Qed.

Lemma reset_restores_defaults_lorenz :
  slider_param_values
    (keyed_slider (reset_parameters lorenz_attractor "Lorenz" moved_session))
    "Lorenz" lorenz_attractor
  = get_default_params lorenz_attractor /\
  solve_attractor_args lorenz_attractor
    (slider_param_values
       (keyed_slider (reset_parameters lorenz_attractor "Lorenz" moved_session))
       "Lorenz" lorenz_attractor)
  = Ok (map default (params lorenz_attractor)).
Proof.
  apply (reset_restores_defaults lorenz_attractor "Lorenz" moved_session).
  - compute_done.
  - reflexivity.
  - intros p v _ H _ _. unfold slider_value, keyed_slider. by rewrite H.
Defined.

(** [solve_attractor] reads the mapping only at the schema names: two
    mappings that agree there give the same outcome, so names outside the
    schema are ignored and never rejected. *)
Theorem solve_attractor_schema_only (env : Numerics) (config : AttractorConfig)
  (param_values param_values' : gmap string float)
  (Hagree : Forall (fun p => param_values !! name p = param_values' !! name p)
                   (params config)) :
  solve_attractor env config param_values = solve_attractor env config param_values'.
Proof.
  unfold solve_attractor.
  assert (solve_attractor_args config param_values
          = solve_attractor_args config param_values') as ->; [|done].
  unfold solve_attractor_args. apply traverse_ext. intros p Hp.
  rewrite Forall_forall in Hagree. unfold getitem. by rewrite (Hagree p Hp).
Qed.

Lemma solve_attractor_schema_only_lorenz :
  solve_attractor Toy.toy_numerics lorenz_attractor
    (get_default_params lorenz_attractor)
  = solve_attractor Toy.toy_numerics lorenz_attractor
      (<["gamma" := 1%float]> (get_default_params lorenz_attractor)).
Proof.
  apply (solve_attractor_schema_only Toy.toy_numerics lorenz_attractor).
  repeat (constructor; [reflexivity|]). constructor.
Defined.

(** The right-hand side of a registered attractor returns three derivatives
    exactly when it is given a state of three coordinates and one argument
    per schema parameter, and then independently of the time; a wrong number
    of arguments is a [TypeError], and otherwise a state of another size is
    a [ValueError]. *)
Theorem builtin_equation_domain (key : string) (config : AttractorConfig)
  (y : list float) (t : float) (args : list float)
  (Hreg : ATTRACTORS !! key = Some config) :
  match equation config y t args with
  | Ok dy => length args = length (params config) /\ length y = 3 /\ length dy = 3 /\
             forall t', equation config y t' args = Ok dy
  | Raise e => (length args <> length (params config) /\ e = TypeError) \/
               (length args = length (params config) /\ length y <> 3 /\ e = ValueError)
  end.
Proof.
  destruct (registered_inv _ _ Hreg) as [[-> ->]|[[-> ->]|[-> ->]]]; simpl.
  - destruct args as [|a [|b [|c [|? ?]]]]; simpl; try (left; split; [lia|done]).
    destruct y as [|x [|y' [|z [|? ?]]]]; simpl;
      try (right; split; [done|split; [lia|done]]).
    by repeat split.
  - destruct args as [|a [|b [|c [|? ?]]]]; simpl; try (left; split; [lia|done]).
    destruct y as [|x [|y' [|z [|? ?]]]]; simpl;
      try (right; split; [done|split; [lia|done]]).
    by repeat split.
  - destruct args as [|a [|b [|c [|d [|e [|? ?]]]]]]; simpl;
      try (left; split; [lia|done]).
    destruct y as [|x [|y' [|z [|? ?]]]]; simpl;
      try (right; split; [done|split; [lia|done]]).
    by repeat split.
Qed.

Lemma builtin_equation_domain_dadras :
  match equation dadras_attractor [1; 2]%float 0%float [3; 2.7; 1.7; 2; 9]%float with
  | Ok dy => length [3; 2.7; 1.7; 2; 9]%float = length (params dadras_attractor) /\
             length [1; 2]%float = 3 /\ length dy = 3 /\
             forall t', equation dadras_attractor [1; 2]%float t' [3; 2.7; 1.7; 2; 9]%float
                        = Ok dy
  | Raise e => (length [3; 2.7; 1.7; 2; 9]%float <> length (params dadras_attractor) /\
                e = TypeError) \/
               (length [3; 2.7; 1.7; 2; 9]%float = length (params dadras_attractor) /\
                length [1; 2]%float <> 3 /\ e = ValueError)
  end.
Proof.
  apply (builtin_equation_domain "Dadras" dadras_attractor [1; 2]%float 0%float
           [3; 2.7; 1.7; 2; 9]%float).
  reflexivity.
Defined.

(** ** Saved parameter sets *)

Lemma schema_values_id config (param_values : gmap string float) :
  dom param_values = list_to_set (map name (params config)) ->
  schema_values config param_values = Ok param_values.
Proof.
  intros Hdom. unfold schema_values.
  set (value_of := fun p : AttractorParam => from_option id 0%float (param_values !! name p)).
  assert (Hval : forall p, p ∈ params config -> param_values !! name p = Some (value_of p)).
  { intros p Hp.
    assert (name p ∈ dom param_values) as Hin.
    { rewrite Hdom. apply elem_of_list_to_set, list_elem_of_fmap. by exists p. }
    apply elem_of_dom in Hin as [v Hv]. unfold value_of. by rewrite Hv. }
  assert (traverse (fun p => v ← getitem param_values (name p); Ok (name p, v))
                   (params config)
          = Ok (map (fun p => (name p, value_of p)) (params config))) as ->.
  { rewrite <- traverse_pure. apply traverse_ext. intros p Hp.
    by rewrite (getitem_Some _ _ _ (Hval p Hp)). }
  cbn [mbind result_bind]. f_equal.
  rewrite foldl_fmap. cbn [fst snd].
  apply map_eq. intros k.
  destruct (decide (k ∈ map name (params config))) as [Hin|Hout].
  - assert (forall ps (d : gmap string float),
              (forall p, p ∈ ps -> p ∈ params config) -> k ∈ map name ps ->
              foldl (fun d p => <[name p := value_of p]> d) d ps !! k = param_values !! k)
      as Hfold.
    { induction ps as [|p ps IH]; intros d Hsub Hk; simpl; [by apply not_elem_of_nil in Hk|].
      destruct (decide (k ∈ map name ps)) as [Hps|Hps].
      - apply IH; [|done]. intros q Hq. apply Hsub. by apply list_elem_of_further.
      - simpl in Hk. apply elem_of_cons in Hk as [->|Hk]; [|done].
        rewrite (insert_fold_other value_of) by done. rewrite lookup_insert_eq.
        symmetry. apply Hval, Hsub, list_elem_of_here. }
    by apply Hfold.
  - rewrite (insert_fold_other value_of) by done. rewrite lookup_empty.
    symmetry. apply not_elem_of_dom. rewrite Hdom. set_solver.
Qed.

(** Clicking Save appends the mapping just built from the sliders, as it is
    passed to the solver, after the sets saved before, and changes no other
    key of the session state; the first click starts the list.  If a float
    sits under "saved_values", the click raises [AttributeError]. *)
Theorem save_appends_slider_values (slider : Slider) (selected_name : string)
  (config : AttractorConfig) (session_state : gmap string state_value) :
  match session_state !! "saved_values" with
  | None =>
      save_values true config (slider_param_values slider selected_name config)
                  (init_saved_values session_state)
      = Returned (<["saved_values" :=
                      ParamSets [slider_param_values slider selected_name config]]>
                    session_state)
  | Some (ParamSets sets) =>
      save_values true config (slider_param_values slider selected_name config)
                  (init_saved_values session_state)
      = Returned (<["saved_values" :=
                      ParamSets (sets ++ [slider_param_values slider selected_name config])]>
                    session_state)
  | Some (Number _) =>
      save_values true config (slider_param_values slider selected_name config)
                  (init_saved_values session_state)
      = RaisedAttributeError
  end.
Proof.
  unfold save_values, init_saved_values.
  rewrite (schema_values_id _ _ (slider_param_values_dom slider selected_name config)).
  destruct (session_state !! "saved_values") as [[v|sets]|] eqn:Hsaved.
  - by rewrite Hsaved.
  - by rewrite Hsaved.
  - rewrite lookup_insert_eq. by rewrite insert_insert_eq.
Qed.

(** ** The figure *)

(** [int(str(i)) = i]: the decimal name of a frame determines its index. *)
Lemma str_parse i : Nat.of_uint <$> NilZero.uint_of_string (str i) = Some i.
Proof.
  unfold str. pose proof (DecimalNat.Unsigned.of_to i) as Hi.
  destruct (Nat.to_uint i) as [| | | | | | | | | |] eqn:E;
    try (rewrite NilZero.usu by discriminate; simpl; by rewrite Hi).
  simpl in Hi. subst i. reflexivity.
Qed.

#[local] Instance str_inj : Inj (=) (=) str.
Proof.
  intros i j H. pose proof (str_parse i) as Hi. rewrite H, str_parse in Hi. congruence.
Qed.

Lemma frame_indices_NoDup max_frames len : NoDup (frame_indices max_frames len).
Proof.
  unfold frame_indices. apply NoDup_fmap_2_strong; [|apply NoDup_seq].
  intros k1 k2 _ _. pose proof (frame_step_pos max_frames len). nia.
Qed.

(** The figure of the animate branch starts on the first frame: its trace
    is the first [step] samples, which is the data of the first frame; a
    trajectory of at most [step] samples is shown whole, without frames. *)
Theorem animated_figure_first_frame (marker : Marker) (x y z : list float)
  (Hy : length y = length x) (Hz : length z = length x) :
  exists fig,
    build_figure true marker x y z = Ok fig /\
    fig_marker fig = marker /\
    match fig_frames fig with
    | [] => length x <= frame_step 300 (length x) /\
            fig_x fig = x /\ fig_y fig = y /\ fig_z fig = z
    | f :: _ => length (fig_x fig) = frame_step 300 (length x) /\
                frame_step 300 (length x) < length x /\
                fig_x fig = data_x f /\ fig_y fig = data_y f /\ fig_z fig = data_z f
    end.
Proof.
  unfold build_figure, animate_frames. rewrite make_frames_eq by lia.
  cbn [mbind result_bind]. eexists. split; [reflexivity|]. split; [reflexivity|].
  cbn [fig_frames fig_x fig_y fig_z]. fold (frame_step 300 (length x)).
  pose proof (frame_step_pos 300 (length x)) as Hst.
  destruct (frame_indices 300 (length x)) as [|i rest] eqn:Hidx; simpl.
  - assert ((length x - 1) / frame_step 300 (length x) = 0) as Hz0.
    { rewrite <- frame_indices_length. by rewrite Hidx. }
    pose proof (Nat.div_mod_eq (length x - 1) (frame_step 300 (length x))) as Hdm.
    pose proof (Nat.mod_upper_bound (length x - 1) (frame_step 300 (length x))
                  ltac:(lia)) as Hr.
    rewrite Hz0 in Hdm.
    assert (length x <= frame_step 300 (length x)) as Hle by lia.
    split; [done|]. rewrite !take_ge by lia. by repeat split.
  - assert (frame_indices 300 (length x) !! 0 = Some i) as H0 by (by rewrite Hidx).
    apply frame_indices_lookup in H0 as (-> & Hlt & _).
    rewrite Nat.mul_1_l in *. rewrite length_take_le by lia. by repeat split.
Qed.

Lemma animated_figure_first_frame_five :
  exists fig,
    build_figure true (marker_dict None "viridis") five_x five_y five_x = Ok fig /\
    fig_marker fig = marker_dict None "viridis" /\
    match fig_frames fig with
    | [] => length five_x <= frame_step 300 (length five_x) /\
            fig_x fig = five_x /\ fig_y fig = five_y /\ fig_z fig = five_x
    | f :: _ => length (fig_x fig) = frame_step 300 (length five_x) /\
                frame_step 300 (length five_x) < length five_x /\
                fig_x fig = data_x f /\ fig_y fig = data_y f /\ fig_z fig = data_z f
    end.
Proof.
  apply (animated_figure_first_frame (marker_dict None "viridis") five_x five_y five_x);
    reflexivity.
Defined.

(** Every frame of the animated figure is named by the decimal of the
    number of samples it shows, no two frames share a name, and the slider
    has one step per frame: the step labelled [k] targets the frame at
    index [k]. *)
Theorem animated_figure_steps (marker : Marker) (x y z : list float) :
  exists fig,
    build_figure true marker x y z = Ok fig /\
    Forall (fun f => frame_name f = str (frame_length f)) (fig_frames fig) /\
    NoDup (map frame_name (fig_frames fig)) /\
    length (fig_steps fig) = length (fig_frames fig) /\
    forall k f, fig_frames fig !! k = Some f ->
                fig_steps fig !! k
                = Some {| step_target := frame_name f; step_label := str k |}.
Proof.
  unfold build_figure, animate_frames. rewrite make_frames_eq by lia.
  cbn [mbind result_bind]. eexists. split; [reflexivity|].
  cbn [fig_frames fig_steps]. split; [|split; [|split]].
  - apply Forall_fmap, Forall_lookup. intros k i Hi. simpl.
    apply frame_indices_lookup in Hi as (_ & Hlt & _).
    unfold frame_length. simpl. by rewrite length_take_le by lia.
  - rewrite <- list_fmap_compose.
    apply (NoDup_fmap_2 str), frame_indices_NoDup.
  - by rewrite length_imap.
  - intros k f Hf. rewrite list_lookup_imap, Hf. reflexivity.
Qed.

(** ** A run of the page *)

Lemma fancy_index_total a indices :
  Forall (fun i => i < length a) indices ->
  exists vs, fancy_index a indices = Ok vs /\ length vs = length indices.
Proof.
  unfold fancy_index. induction 1 as [|i indices Hi _ IH]; simpl.
  - by exists [].
  - destruct IH as (vs & -> & Hlen).
    destruct (lookup_lt_is_Some_2 a i Hi) as [v ->]. simpl.
    exists (v :: vs). split; [done|]. simpl. by rewrite Hlen.
Qed.

(** On a full-size trajectory the density branch can only fail in the fit. *)
Lemma density_branch_cases env (x y : list float) (g : rng env) :
  Z.of_nat (length x) = 10000%Z -> length y = length x ->
  exists xs ys,
    length xs = 1000 /\ length ys = 1000 /\
    (estimate_density env 1000 10000 x y g).1
    = (k ← gaussian_kde env (xs, ys); Ok (zip_with (kde_pdf env k) x y)).
Proof.
  intros Hx Hy. unfold estimate_density. cbn [fst snd].
  change (Z.min 1000 10000) with 1000%Z.
  destruct (choice_spec env g 10000 1000 ltac:(lia)) as (idx & -> & Hlen & _ & Hlt).
  cbn [mbind result_bind].
  destruct (fancy_index_total x idx) as (xs & -> & Hxs).
  { eapply Forall_impl; [exact Hlt|]. intros i Hi. simpl in Hi. lia. }
  destruct (fancy_index_total y idx) as (ys & -> & Hys).
  { eapply Forall_impl; [exact Hlt|]. intros i Hi. simpl in Hi. lia. }
  cbn [mbind result_bind]. exists xs, ys.
  split; [lia|]. split; [lia|].
  unfold vstack2. rewrite Hxs, Hys, Nat.eqb_refl. cbn [mbind result_bind].
  destruct (gaussian_kde env (xs, ys)) as [k|e]; [|done].
  cbn [mbind result_bind]. rewrite <- Hy, Nat.eqb_refl. reflexivity.
Qed.

Lemma build_figure_total animate marker (x y z : list float) :
  exists fig,
    build_figure animate marker x y z = Ok fig /\
    fig_marker fig = marker /\
    (animate = true ->
       length (fig_frames fig) = (length x - 1) / frame_step 300 (length x) /\
       length (fig_x fig) = Nat.min (frame_step 300 (length x)) (length x)) /\
    (animate = false -> fig_x fig = x /\ fig_y fig = y /\ fig_z fig = z /\
                        fig_frames fig = [] /\ fig_steps fig = []).
Proof.
  unfold build_figure, animate_frames. destruct animate.
  - rewrite make_frames_eq by lia. cbn [mbind result_bind].
    eexists. split; [reflexivity|]. split; [reflexivity|]. split; [|done].
    intros _. cbn [fig_frames fig_x].
    by rewrite length_map, frame_indices_length, length_take.
  - eexists. split; [reflexivity|]. split; [reflexivity|]. split; [done|].
    intros _. by repeat split.
Qed.

Lemma render_builtin_cases env key config param_values use_density colorscale animate g :
  ATTRACTORS !! key = Some config ->
  covers config param_values = true ->
  exists x y z,
    Z.of_nat (length x) = 10000%Z /\ length y = length x /\ length z = length x /\
    render env config param_values use_density colorscale animate g
    = if use_density then
        (density ← (estimate_density env 1000 10000 x y g).1;
         build_figure animate (marker_dict (Some density) colorscale) x y z,
         (estimate_density env 1000 10000 x y g).2)
      else (build_figure animate (marker_dict None colorscale) x y z, g).
Proof.
  intros Hreg Hcov.
  destruct (builtin_solve env _ _ _ Hreg Hcov) as (traj & Hrun & _ & Hlen & Hrows).
  destruct (unpack_columns_shape traj Hrows) as (x & y & z & Hcols & Hx & Hy & Hz & _).
  destruct (builtin_shape _ _ Hreg) as (_ & _ & _ & Hn & _).
  exists x, y, z. split; [lia|]. split; [congruence|]. split; [congruence|].
  unfold render. rewrite Hrun. cbn [mbind result_bind]. rewrite Hcols.
  cbn [mbind result_bind]. rewrite (getitem_Some _ _ _ Hn). reflexivity.
Qed.

(** For every registered attractor and every mapping that gives each schema
    parameter a value, the computation of the figure can fail only in the
    density branch, and then with what [gaussian_kde] raised on the 1000
    drawn samples.  When it succeeds, the density colours have one entry per
    sample, the animated figure has 303 frames after a first trace of 33
    samples, and the plain figure shows all 10000 samples. *)
Theorem render_builtin (env : Numerics) (key : string) (config : AttractorConfig)
  (param_values : gmap string float) (use_density : bool) (colorscale : string)
  (animate : bool) (g : rng env)
  (Hreg : ATTRACTORS !! key = Some config)
  (Hcov : covers config param_values = true) :
  match (render env config param_values use_density colorscale animate g).1 with
  | Ok fig =>
      (use_density = true ->
         exists density, fig_marker fig = marker_dict (Some density) colorscale /\
                         Z.of_nat (length density) = 10000%Z) /\
      (use_density = false ->
         fig_marker fig = marker_dict None colorscale /\
         (render env config param_values use_density colorscale animate g).2 = g) /\
      (animate = true -> length (fig_frames fig) = 303 /\ length (fig_x fig) = 33) /\
      (animate = false -> Z.of_nat (length (fig_x fig)) = 10000%Z /\ fig_frames fig = [])
  | Raise e =>
      use_density = true /\
      exists xs ys, length xs = 1000 /\ length ys = 1000 /\
                    gaussian_kde env (xs, ys) = Raise e
  end.
Proof.
  destruct (render_builtin_cases env key config param_values use_density colorscale
              animate g Hreg Hcov) as (x & y & z & Hx & Hy & Hz & ->).
  assert (length x = Z.to_nat 10000) as Hx' by lia.
  assert (Hfig : forall marker,
            exists fig, build_figure animate marker x y z = Ok fig /\
              fig_marker fig = marker /\
              (animate = true -> length (fig_frames fig) = 303 /\ length (fig_x fig) = 33) /\
              (animate = false ->
                 Z.of_nat (length (fig_x fig)) = 10000%Z /\ fig_frames fig = [])).
  { intros marker.
    destruct (build_figure_total animate marker x y z) as (fig & Hfig & Hm & Ha & Hp).
    exists fig. split; [done|]. split; [done|]. split.
    - intros Hanim. destruct (Ha Hanim) as [-> ->]. rewrite Hx'. by vm_compute.
    - intros Hplain. destruct (Hp Hplain) as (-> & _ & _ & -> & _). by split. }
  destruct use_density; cbn [fst snd].
  - destruct (density_branch_cases env x y g Hx Hy) as (xs & ys & Hxs & Hys & ->).
    destruct (gaussian_kde env (xs, ys)) as [k|e] eqn:Hk; cbn [mbind result_bind].
    + destruct (Hfig (marker_dict (Some (zip_with (kde_pdf env k) x y)) colorscale))
        as (fig & -> & Hm & Ha & Hp).
      split; [|split; [discriminate|by split]].
      intros _. eexists. split; [exact Hm|]. rewrite length_zip_with. lia.
    + split; [done|]. by exists xs, ys.
  - destruct (Hfig (marker_dict None colorscale)) as (fig & -> & Hm & Ha & Hp).
    split; [discriminate|]. split; [by intros _|]. by split.
Qed.

Lemma render_builtin_lorenz :
  match (render Toy.toy_numerics lorenz_attractor (get_default_params lorenz_attractor)
           false "viridis" true 7%Z).1 with
  | Ok fig =>
      (false = true ->
         exists density, fig_marker fig = marker_dict (Some density) "viridis" /\
                         Z.of_nat (length density) = 10000%Z) /\
      (false = false ->
         fig_marker fig = marker_dict None "viridis" /\
         (render Toy.toy_numerics lorenz_attractor (get_default_params lorenz_attractor)
            false "viridis" true 7%Z).2 = 7%Z) /\
      (true = true -> length (fig_frames fig) = 303 /\ length (fig_x fig) = 33) /\
      (true = false -> Z.of_nat (length (fig_x fig)) = 10000%Z /\ fig_frames fig = [])
  | Raise e =>
      false = true /\
      exists xs ys, length xs = 1000 /\ length ys = 1000 /\
                    Toy.toy_gaussian_kde (xs, ys) = Raise e
  end.
Proof.
  apply (render_builtin Toy.toy_numerics "Lorenz" lorenz_attractor
           (get_default_params lorenz_attractor) false "viridis" true 7%Z);
    reflexivity.
Defined.





(** ** Unpacking the solution and duplicate parameter names *)

Lemma unpack_columns_inv (solution : list (list float)) x y z :
  unpack_columns solution = Ok (x, y, z) ->
  solution = zip_with (fun a bc => [a; bc.1; bc.2]) x (zip y z) /\
  length x = length solution /\ length y = length solution /\ length z = length solution.
Proof.
  unfold unpack_columns. revert x y z.
  induction solution as [|row solution IH]; intros x y z H.
  - simpl in H. injection H as [= <- <- <-]. by repeat split.
  - apply bind_Ok in H as (rows & Hrows & [= <- <- <-]). simpl in Hrows.
    apply bind_Ok in Hrows as ([[a b] c] & Hrow & Hrows).
    apply bind_Ok in Hrows as (rows' & Hrows' & [= <-]).
    destruct row as [|a' [|b' [|c' [|? ?]]]]; try discriminate.
    injection Hrow as [= -> -> ->].
    destruct (IH (map (fun r => r.1.1) rows') (map (fun r => r.1.2) rows')
                 (map (fun r => r.2) rows')) as (Hsol & Hx & Hy & Hz).
    { by rewrite Hrows'. }
    simpl. rewrite <- Hsol, Hx, Hy, Hz. by repeat split.
Qed.

Lemma unpack_columns_bad_row (solution : list (list float)) :
  Exists (fun row => length row <> 3) solution ->
  unpack_columns solution = Raise ValueError.
Proof.
  unfold unpack_columns. induction 1 as [row solution Hrow|row solution _ IH]; simpl.
  - by destruct row as [|a [|b [|c [|? ?]]]].
  - destruct (unpack_row row) as [r|e] eqn:Hr; simpl.
    + destruct (traverse unpack_row solution) as [rows|e]; simpl in *; [discriminate|done].
    + destruct row as [|a [|b [|c [|? ?]]]]; simpl in Hr; congruence.
Qed.

(** [x, y, z = solution.T] succeeds exactly on rows of three coordinates:
    then the columns have one entry per row and reassemble to the rows; a
    row of another size raises [ValueError]. *)
Theorem unpack_columns_round_trip (solution : list (list float)) :
  match unpack_columns solution with
  | Ok (x, y, z) =>
      Forall (fun row => length row = 3) solution /\
      solution = zip_with (fun a bc => [a; bc.1; bc.2]) x (zip y z) /\
      length x = length solution /\ length y = length solution /\
      length z = length solution
  | Raise e => Exists (fun row => length row <> 3) solution /\ e = ValueError
  end.
Proof.
  destruct (decide (Forall (fun row => length row = 3) solution)) as [Hall|Hbad].
  - destruct (unpack_columns_shape solution Hall) as (x & y & z & Hrun & _).
    rewrite Hrun. split; [done|]. by apply unpack_columns_inv.
  - apply not_Forall_Exists in Hbad; [|apply _].
    assert (Exists (fun row => length row <> 3) solution) as Hex.
    { eapply Exists_impl; [exact Hbad|]. by intros row Hrow. }
    rewrite (unpack_columns_bad_row solution Hex). by split.
Qed.

Lemma default_params_last (ps : list AttractorParam) (d : gmap string float) n :
  foldl (fun d p => <[name p := default p]> d) d ps !! n
  = match last (filter (fun p => name p = n) ps) with
    | Some p => Some (default p)
    | None => d !! n
    end.
Proof.
  revert d. induction ps as [|p ps IH]; intros d; simpl; [done|].
  rewrite IH. rewrite filter_cons.
  destruct (decide (name p = n)) as [<-|Hne].
  - destruct (filter (fun q => name q = name p) ps) as [|q qs] eqn:Hf.
    + simpl. apply lookup_insert_eq.
    + rewrite last_cons_cons.
      destruct (last (q :: qs)) eqn:Hl; [done|]. by apply last_None in Hl.
  - destruct (last (filter (fun q => name q = n) ps)); [done|].
    by apply lookup_insert_ne.
Qed.

(** When several parameters share a name, [get_default_params] keeps the
    default of the last of them; a name outside the schema has no entry. *)
Theorem default_params_last_wins (config : AttractorConfig) (n : string) :
  get_default_params config !! n
  = default <$> last (filter (fun p => name p = n) (params config)).
Proof.
  unfold get_default_params. rewrite default_params_last.
  by destruct (last (filter (fun p => name p = n) (params config))).
Qed.
